(** * intake-flow: the workflow editor, its canvas, the step panel, the form
    builder and the middleware matcher, as Rocq functions.

    React components are modelled by their state and their handlers: a
    [useState] cell is a record field, a handler is a function from the state
    of the render it closes over to the next state, and a callback prop is an
    element of a small inductive type that the parent interprets.  A handler
    always runs against the latest render (React re-renders after each
    event), so the value a handler reads from its closure is the current
    state.  [setTimeout] callbacks are kept in a list of pending timers,
    together with the values they captured, and run when the timer fires. *)

From Stdlib Require Import Ascii QArith.Qcanon.
From stdpp Require Import base numbers option list strings gmap pretty.

Local Open Scope Z_scope.

(** ** Shared data (WorkflowEditor.tsx, WorkflowCanvas.tsx, StepconfigPanel.tsx) *)

(** The string literals of [WorkflowStep["type"]]; "webhook" is in the union
    of the canvas, the panel and the step library. *)
Inductive StepType :=
  | form | email | document | payment | calendar | condition | delay | webhook.

Definition StepType_to_string (t : StepType) : string :=
  match t with
  | form => "form"
  | email => "email"
  | document => "document"
  | payment => "payment"
  | calendar => "calendar"
  | condition => "condition"
  | delay => "delay"
  | webhook => "webhook"
  end.

(** The values the panel stores under [config: Record<string, any>]: strings,
    booleans and numbers ([Number.parseInt], [Number.parseFloat], which may
    give NaN). *)
Inductive JsValue :=
  | JStr (s : string)
  | JBool (b : bool)
  | JNum (q : Qc)
  | JNaN.

Record Position := { x : Z; y : Z }.

Record WorkflowStep := {
  step_id : string;
  step_type : StepType;
  step_name : string;
  step_description : option string;
  step_config : gmap string JsValue;
  step_position : Position;
}.

Record Connection := { conn_from : string; conn_to : string }.

Inductive Status := active | draft.

Record WorkflowData := {
  wf_id : option string;
  wf_name : string;
  wf_description : string;
  wf_status : Status;
  steps : list WorkflowStep;
  connections : list Connection;
}.

(** [Partial<WorkflowStep>]: a key that is absent is [None]. *)
Record StepUpdates := {
  upd_id : option string;
  upd_type : option StepType;
  upd_name : option string;
  upd_description : option (option string);
  upd_config : option (gmap string JsValue);
  upd_position : option Position;
}.

(** [{ ...step, ...updates }] *)
Definition spread_step (step : WorkflowStep) (updates : StepUpdates) : WorkflowStep :=
  {| step_id := default (step_id step) (upd_id updates);
     step_type := default (step_type step) (upd_type updates);
     step_name := default (step_name step) (upd_name updates);
     step_description := default (step_description step) (upd_description updates);
     step_config := default (step_config step) (upd_config updates);
     step_position := default (step_position step) (upd_position updates) |}.

#[global] Instance StepType_eq_dec : EqDecision StepType.
Proof. solve_decision. Defined.
#[global] Instance Status_eq_dec : EqDecision Status.
Proof. solve_decision. Defined.
#[global] Instance JsValue_eq_dec : EqDecision JsValue.
Proof. solve_decision. Defined.
#[global] Instance Position_eq_dec : EqDecision Position.
Proof. solve_decision. Defined.
#[global] Instance Connection_eq_dec : EqDecision Connection.
Proof. solve_decision. Defined.
#[global] Instance WorkflowStep_eq_dec : EqDecision WorkflowStep.
Proof. solve_decision. Defined.
#[global] Instance WorkflowData_eq_dec : EqDecision WorkflowData.
Proof. solve_decision. Defined.

(** ** WorkflowEditor.tsx *)
Module Editor.

Inductive Mode := create | edit.

Definition mockWorkflowData : WorkflowData :=
  {| wf_id := Some "1";
     wf_name := "Web Design Onboarding";
     wf_description := "Complete client intake for web design projects";
     wf_status := active;
     steps :=
       [ {| step_id := "step-1";
            step_type := form;
            step_name := "Project Intake Form";
            step_description := Some "Collect initial project requirements";
            step_config := {[ "formId" := JStr "intake-form-1" ]};
            step_position := {| x := 100; y := 100 |} |};
         {| step_id := "step-2";
            step_type := email;
            step_name := "Welcome Email";
            step_description := Some "Send welcome email to client";
            step_config := {[ "templateId" := JStr "welcome-template" ]};
            step_position := {| x := 300; y := 100 |} |};
         {| step_id := "step-3";
            step_type := document;
            step_name := "Send Contract";
            step_description := Some "Send contract for signature";
            step_config := {[ "documentId" := JStr "contract-template" ]};
            step_position := {| x := 500; y := 100 |} |} ];
     connections :=
       [ {| conn_from := "step-1"; conn_to := "step-2" |};
         {| conn_from := "step-2"; conn_to := "step-3" |} ] |}.

(** What a pending [setTimeout] callback does when it runs: both callbacks
    of the editor log a label with the workflow they captured and then call
    [setIsLoading(false)]. *)
Inductive TimerCallback :=
  | SaveCallback (captured : WorkflowData)
  | PublishCallback (captured : WorkflowData).

Record Timer := { timer_ms : Z; timer_callback : TimerCallback }.

Record LogEntry := { log_label : string; log_payload : WorkflowData }.

(** The four [useState] cells, the timers that are pending and the lines
    written by [console.log]. *)
Record State := {
  workflow : WorkflowData;
  selectedStep : option string;
  isLoading : bool;
  showStepLibrary : bool;
  timers : list Timer;
  console : list LogEntry;
}.

Definition setWorkflow (f : WorkflowData → WorkflowData) (st : State) : State :=
  {| workflow := f (workflow st); selectedStep := selectedStep st;
     isLoading := isLoading st; showStepLibrary := showStepLibrary st;
     timers := timers st; console := console st |}.

Definition setSelectedStep (s : option string) (st : State) : State :=
  {| workflow := workflow st; selectedStep := s;
     isLoading := isLoading st; showStepLibrary := showStepLibrary st;
     timers := timers st; console := console st |}.

Definition setIsLoading (b : bool) (st : State) : State :=
  {| workflow := workflow st; selectedStep := selectedStep st;
     isLoading := b; showStepLibrary := showStepLibrary st;
     timers := timers st; console := console st |}.

Definition setShowStepLibrary (b : bool) (st : State) : State :=
  {| workflow := workflow st; selectedStep := selectedStep st;
     isLoading := isLoading st; showStepLibrary := b;
     timers := timers st; console := console st |}.

Definition setTimeout (cb : TimerCallback) (ms : Z) (st : State) : State :=
  {| workflow := workflow st; selectedStep := selectedStep st;
     isLoading := isLoading st; showStepLibrary := showStepLibrary st;
     timers := timers st ++ [ {| timer_ms := ms; timer_callback := cb |} ];
     console := console st |}.

Definition console_log (label : string) (w : WorkflowData) (st : State) : State :=
  {| workflow := workflow st; selectedStep := selectedStep st;
     isLoading := isLoading st; showStepLibrary := showStepLibrary st;
     timers := timers st;
     console := console st ++ [ {| log_label := label; log_payload := w |} ] |}.

Definition set_timers (ts : list Timer) (st : State) : State :=
  {| workflow := workflow st; selectedStep := selectedStep st;
     isLoading := isLoading st; showStepLibrary := showStepLibrary st;
     timers := ts; console := console st |}.

(** The arguments of the [useState] calls. *)
Definition initial : State :=
  {| workflow :=
       {| wf_id := None; wf_name := ""; wf_description := "";
          wf_status := draft; steps := []; connections := [] |};
     selectedStep := None;
     isLoading := false;
     showStepLibrary := false;
     timers := [];
     console := [] |}.

(** Truthiness of a [string | undefined]: [undefined] and the empty string
    are falsy. *)
Definition truthy (workflowId : option string) : bool :=
  match workflowId with
  | None => false
  | Some s => bool_decide (s ≠ "")
  end.

(** The [useEffect] body. *)
Definition effect (mode : Mode) (workflowId : option string) (st : State) : State :=
  match mode with
  | edit => if truthy workflowId then setWorkflow (λ _, mockWorkflowData) st else st
  | create => st
  end.

(** Mounting the component: the initial render, then the effect. *)
Definition mount (mode : Mode) (workflowId : option string) : State :=
  effect mode workflowId initial.

Definition handleSave (st : State) : State :=
  setTimeout (SaveCallback (workflow st)) 1000 (setIsLoading true st).

Definition set_status (s : Status) (w : WorkflowData) : WorkflowData :=
  {| wf_id := wf_id w; wf_name := wf_name w; wf_description := wf_description w;
     wf_status := s; steps := steps w; connections := connections w |}.

Definition handlePublish (st : State) : State :=
  let updatedWorkflow := set_status active (workflow st) in
  setTimeout (PublishCallback updatedWorkflow) 1000
    (setWorkflow (λ _, updatedWorkflow) (setIsLoading true st)).

Definition run_callback (cb : TimerCallback) (st : State) : State :=
  match cb with
  | SaveCallback w => setIsLoading false (console_log "Saving workflow:" w st)
  | PublishCallback w => setIsLoading false (console_log "Publishing workflow:" w st)
  end.

(** The [n]-th pending timer fires: it leaves the pending list and its
    callback runs.  Nothing happens when there is no such timer. *)
Definition fire (n : nat) (st : State) : State :=
  match timers st !! n with
  | Some t => run_callback (timer_callback t) (set_timers (delete n (timers st)) st)
  | None => st
  end.

Definition set_steps (f : list WorkflowStep → list WorkflowStep) (w : WorkflowData)
  : WorkflowData :=
  {| wf_id := wf_id w; wf_name := wf_name w; wf_description := wf_description w;
     wf_status := wf_status w; steps := f (steps w); connections := connections w |}.

(** [now] is the value of [Date.now()], a count of milliseconds. *)
Definition addStep (now : N) (stepType : StepType) (st : State) : State :=
  let newStep :=
    {| step_id := "step-" +:+ pretty now;
       step_type := stepType;
       step_name := "New " +:+ StepType_to_string stepType +:+ " step";
       step_description := None;
       step_config := ∅;
       step_position :=
         {| x := 200 + Z.of_nat (length (steps (workflow st))) * 50;
            y := 200 + Z.of_nat (length (steps (workflow st))) * 50 |} |} in
  setShowStepLibrary false
    (setSelectedStep (Some (step_id newStep))
       (setWorkflow (set_steps (λ prev, prev ++ [newStep])) st)).

Definition updateStep (stepId : string) (updates : StepUpdates) (st : State) : State :=
  setWorkflow
    (set_steps
       (fmap (λ step, if decide (step_id step = stepId)
                      then spread_step step updates else step)))
    st.

Definition deleteStep (stepId : string) (st : State) : State :=
  let st' :=
    setWorkflow
      (λ prev,
         {| wf_id := wf_id prev; wf_name := wf_name prev;
            wf_description := wf_description prev; wf_status := wf_status prev;
            steps := filter (λ step, step_id step ≠ stepId) (steps prev);
            connections :=
              filter (λ conn, conn_from conn ≠ stepId ∧ conn_to conn ≠ stepId)
                     (connections prev) |})
      st in
  if decide (selectedStep st = Some stepId) then setSelectedStep None st' else st'.

(** [workflow.steps.find(step => step.id === selectedStep)] *)
Definition selectedStepData (st : State) : option WorkflowStep :=
  match selectedStep st with
  | Some sel => list_find (λ step, step_id step = sel) (steps (workflow st)) ≫= (λ p, Some p.2)
  | None => None
  end.

(** Every connection runs between steps that exist: its [from] and its [to]
    are ids of steps of the workflow. *)
Definition connections_closed (w : WorkflowData) : Prop :=
  Forall (λ conn, conn_from conn ∈ (step_id <$> steps w)
                  ∧ conn_to conn ∈ (step_id <$> steps w))
         (connections w).

#[global] Instance connections_closed_dec w : Decision (connections_closed w).
Proof. unfold connections_closed. apply _. Defined.

(** The [onChange] handlers of the settings card and the "Add Step" button. *)
Definition changeName (value : string) (st : State) : State :=
  setWorkflow
    (λ prev, {| wf_id := wf_id prev; wf_name := value;
                wf_description := wf_description prev; wf_status := wf_status prev;
                steps := steps prev; connections := connections prev |})
    st.

Definition changeDescription (value : string) (st : State) : State :=
  setWorkflow
    (λ prev, {| wf_id := wf_id prev; wf_name := wf_name prev;
                wf_description := value; wf_status := wf_status prev;
                steps := steps prev; connections := connections prev |})
    st.

Definition changeAutoStart (checked : bool) (st : State) : State :=
  setWorkflow (set_status (if checked then active else draft)) st.

Definition toggleStepLibrary (st : State) : State :=
  setShowStepLibrary (negb (showStepLibrary st)) st.

(** The step [addStep] builds from [Date.now()], the type and the number of
    steps of the render. *)
Definition newStep (now : N) (stepType : StepType) (count : nat) : WorkflowStep :=
  {| step_id := "step-" +:+ pretty now;
     step_type := stepType;
     step_name := "New " +:+ StepType_to_string stepType +:+ " step";
     step_description := None;
     step_config := ∅;
     step_position :=
       {| x := 200 + Z.of_nat count * 50; y := 200 + Z.of_nat count * 50 |} |}.

End Editor.

(** ** WorkflowCanvas.tsx *)
Module Canvas.

(** The callback props, as the calls the canvas makes to its parent. *)
Inductive Callback :=
  | onSelectStep (stepId : option string)
  | onUpdateStep (stepId : string) (updates : StepUpdates)
  | onDeleteStep (stepId : string).

(** The DOM events wired in the JSX of a step card. *)
Inductive Event :=
  | Click (stepId : string)
  | DragStart (stepId : string)
  | DragEnd
  | ClickSettings (stepId : string)
  | ClickDelete (stepId : string).

(** The canvas has one [useState] cell, [draggedStep]. *)
Definition State := option string.

Definition initial : State := None.

Definition handleStepClick (selectedStep : option string) (stepId : string)
  : list Callback :=
  [ onSelectStep (if decide (selectedStep = Some stepId) then None else Some stepId) ].

Definition handleDragStart (stepId : string) (draggedStep : State) : State :=
  Some stepId.

Definition handleDragEnd (draggedStep : State) : State := None.

(** One event: the next local state and the callbacks invoked, in order. *)
Definition handle (selectedStep : option string) (ev : Event) (draggedStep : State)
  : State * list Callback :=
  match ev with
  | Click stepId => (draggedStep, handleStepClick selectedStep stepId)
  | DragStart stepId => (handleDragStart stepId draggedStep, [])
  | DragEnd => (handleDragEnd draggedStep, [])
  | ClickSettings stepId => (draggedStep, [ onSelectStep (Some stepId) ])
  | ClickDelete stepId => (draggedStep, [ onDeleteStep stepId ])
  end.

Definition is_drag (ev : Event) : bool :=
  match ev with
  | DragStart _ | DragEnd => true
  | _ => false
  end.

(** The icons of lucide-react that the step cards use. *)
Inductive Icon :=
  | Users | Mail | FileText | DollarSign | Calendar | Clock | GitBranch | Zap.

(** [getStepIcon]: a [switch] on the type string, compared case by case. *)
Definition getStepIcon (type : string) : Icon :=
  if decide (type = "form") then Users
  else if decide (type = "email") then Mail
  else if decide (type = "document") then FileText
  else if decide (type = "payment") then DollarSign
  else if decide (type = "calendar") then Calendar
  else if decide (type = "delay") then Clock
  else if decide (type = "condition") then GitBranch
  else if decide (type = "webhook") then Zap
  else Zap.

(** [workflow.steps.find((s) => s.id === id)]: the first step with the id. *)
Definition find_step (w : WorkflowData) (stepId : string) : option WorkflowStep :=
  snd <$> list_find (λ s, step_id s = stepId) (steps w).

Record Line := { x1 : Z; y1 : Z; x2 : Z; y2 : Z }.

(** What the [map] over [workflow.connections] draws for one connection:
    nothing when an end is missing, else a line between the two cards, from
    150 to the right of and 40 below their positions. *)
Definition connection_line (w : WorkflowData) (connection : Connection) : option Line :=
  match find_step w (conn_from connection), find_step w (conn_to connection) with
  | Some fromStep, Some toStep =>
      Some {| x1 := x (step_position fromStep) + 150;
              y1 := y (step_position fromStep) + 40;
              x2 := x (step_position toStep) + 150;
              y2 := y (step_position toStep) + 40 |}
  | _, _ => None
  end.

(** The lines on the canvas ([null] draws nothing). *)
Definition lines (w : WorkflowData) : list Line :=
  omap (connection_line w) (connections w).

End Canvas.

(** ** StepconfigPanel.tsx *)
Module Panel.

Inductive Callback :=
  | onUpdateStep (stepId : string) (updates : StepUpdates)
  | onClose.

(** The two fields [updateStepField] is called with. *)
Inductive Field := name | description.

Inductive Event :=
  | ChangeField (field : Field) (value : string)
  | ChangeConfig (configKey : string) (value : JsValue)
  | ClickX
  | ClickSaveChanges
  | ClickCancel.

(** [onUpdateStep(step.id, { [field]: value })] *)
Definition updateStepField (step : WorkflowStep) (field : Field) (value : string)
  : list Callback :=
  [ onUpdateStep (step_id step)
      match field with
      | name =>
          {| upd_id := None; upd_type := None; upd_name := Some value;
             upd_description := None; upd_config := None; upd_position := None |}
      | description =>
          {| upd_id := None; upd_type := None; upd_name := None;
             upd_description := Some (Some value); upd_config := None;
             upd_position := None |}
      end ].

(** [onUpdateStep(step.id, { config: { ...step.config, [configKey]: value } })] *)
Definition updateStepConfig (step : WorkflowStep) (configKey : string) (value : JsValue)
  : list Callback :=
  [ onUpdateStep (step_id step)
      {| upd_id := None; upd_type := None; upd_name := None;
         upd_description := None;
         upd_config := Some (<[configKey := value]> (step_config step));
         upd_position := None |} ].

(** The handler the JSX attaches to each control. *)
Definition handle (step : WorkflowStep) (ev : Event) : list Callback :=
  match ev with
  | ChangeField field value => updateStepField step field value
  | ChangeConfig configKey value => updateStepConfig step configKey value
  | ClickX => [ onClose ]
  | ClickSaveChanges => [ onClose ]
  | ClickCancel => [ onClose ]
  end.

End Panel.

(** ** The editor with its two children (the JSX of WorkflowEditor.tsx) *)
Module App.

(** The editor's cells and the canvas's [draggedStep]. *)
Definition State : Type := Editor.State * Canvas.State.

(** [onSelectStep={setSelectedStep} onUpdateStep={updateStep}
     onDeleteStep={deleteStep}] *)
Definition canvas_callback (cb : Canvas.Callback) (st : Editor.State) : Editor.State :=
  match cb with
  | Canvas.onSelectStep stepId => Editor.setSelectedStep stepId st
  | Canvas.onUpdateStep stepId updates => Editor.updateStep stepId updates st
  | Canvas.onDeleteStep stepId => Editor.deleteStep stepId st
  end.

(** [onUpdateStep={updateStep} onClose={() => setSelectedStep(null)}] *)
Definition panel_callback (cb : Panel.Callback) (st : Editor.State) : Editor.State :=
  match cb with
  | Panel.onUpdateStep stepId updates => Editor.updateStep stepId updates st
  | Panel.onClose => Editor.setSelectedStep None st
  end.

Definition canvas_event (ev : Canvas.Event) (st : State) : State :=
  let '(draggedStep, calls) := Canvas.handle (Editor.selectedStep st.1) ev st.2 in
  (foldl (λ s cb, canvas_callback cb s) st.1 calls, draggedStep).

(** The calls the canvas makes to its parent on a list of events. *)
Fixpoint canvas_calls (evs : list Canvas.Event) (st : State) : list Canvas.Callback :=
  match evs with
  | [] => []
  | ev :: evs' =>
      (Canvas.handle (Editor.selectedStep st.1) ev st.2).2
        ++ canvas_calls evs' (canvas_event ev st)
  end.

Definition canvas_events (evs : list Canvas.Event) (st : State) : State :=
  foldl (λ s ev, canvas_event ev s) st evs.

(** The panel is rendered only while [selectedStepData] is defined. *)
Definition panel_event (ev : Panel.Event) (st : Editor.State) : Editor.State :=
  match Editor.selectedStepData st with
  | Some step => foldl (λ s cb, panel_callback cb s) st (Panel.handle step ev)
  | None => st
  end.

Definition panel_events (evs : list Panel.Event) (st : Editor.State) : Editor.State :=
  foldl (λ s ev, panel_event ev s) st evs.

(** Every event the page can receive: the header buttons (disabled while
    [isLoading]), a pending timer firing, the settings card, the step
    library ([onAddStep], with the time of the click), the "Add Step"
    button, the canvas and the panel. *)
Inductive Event :=
  | ClickSaveDraft
  | ClickPublish
  | TimerFires (n : nat)
  | ChangeName (value : string)
  | ChangeDescription (value : string)
  | SwitchAutoStart (checked : bool)
  | LibraryAddStep (now : N) (stepType : StepType)
  | ClickAddStep
  | OnCanvas (ev : Canvas.Event)
  | OnPanel (ev : Panel.Event).

Definition step (ev : Event) (st : State) : State :=
  match ev with
  | ClickSaveDraft =>
      (if Editor.isLoading st.1 then st.1 else Editor.handleSave st.1, st.2)
  | ClickPublish =>
      (if Editor.isLoading st.1 then st.1 else Editor.handlePublish st.1, st.2)
  | TimerFires n => (Editor.fire n st.1, st.2)
  | ChangeName value => (Editor.changeName value st.1, st.2)
  | ChangeDescription value => (Editor.changeDescription value st.1, st.2)
  | SwitchAutoStart checked => (Editor.changeAutoStart checked st.1, st.2)
  | LibraryAddStep now stepType => (Editor.addStep now stepType st.1, st.2)
  | ClickAddStep => (Editor.toggleStepLibrary st.1, st.2)
  | OnCanvas ev => canvas_event ev st
  | OnPanel ev => (panel_event ev st.1, st.2)
  end.

Definition run (evs : list Event) (st : State) : State :=
  foldl (λ s ev, step ev s) st evs.

(** The page as mounted. *)
Definition start (mode : Editor.Mode) (workflowId : option string) : State :=
  (Editor.mount mode workflowId, Canvas.initial).

End App.

(** ** middleware.ts *)
Module Middleware.

(** The regular-expression syntax the matcher uses. *)
Inductive regex :=
  | Empty
  | Char (c : ascii)
  | Any                           (* [.] *)
  | Seq (r1 r2 : regex)
  | Alt (r1 r2 : regex)           (* [r1|r2] *)
  | Star (r : regex)              (* [r*] *)
  | NegLookahead (r : regex)      (* [(?!r)] *)
  | EndOfInput.                   (* [$] *)

(** [.] matches any character except a line terminator; of these only
    line feed and carriage return are single bytes. *)
Definition line_terminator (c : ascii) : bool :=
  bool_decide (c = "010"%char) || bool_decide (c = "013"%char).

(** The iterations of [r*]: [step] matches [r] once.  An iteration has to
    consume input, so [String.length s] iterations are all there can be,
    and that is the fuel [matches] gives. *)
Fixpoint iterate (step : string → (string → bool) → bool) (k : string → bool)
    (fuel : nat) (s : string) {struct fuel} : bool :=
  match fuel with
  | O => k s
  | S fuel' =>
      step s (λ s', bool_decide (String.length s' < String.length s)%nat
                    && iterate step k fuel' s')
      || k s
  end.

(** Backtracking matcher: [matches r s k] holds when [r] matches a prefix
    of [s] and the continuation [k] accepts what is left. *)
Fixpoint matches (r : regex) (s : string) (k : string → bool) {struct r} : bool :=
  match r with
  | Empty => k s
  | Char c =>
      match s with
      | String c' s' => bool_decide (c' = c) && k s'
      | EmptyString => false
      end
  | Any =>
      match s with
      | String c' s' => negb (line_terminator c') && k s'
      | EmptyString => false
      end
  | Seq r1 r2 => matches r1 s (λ s', matches r2 s' k)
  | Alt r1 r2 => matches r1 s k || matches r2 s k
  | Star r1 => iterate (matches r1) k (String.length s) s
  | NegLookahead r1 => negb (matches r1 s (λ _, true)) && k s
  | EndOfInput =>
      match s with
      | EmptyString => k s
      | String _ _ => false
      end
  end.

Fixpoint literal (s : string) : regex :=
  match s with
  | EmptyString => Empty
  | String c s' => Seq (Char c) (literal s')
  end.

(** The one entry of [config.matcher]: a slash, then a group that holds a
    negative lookahead over [api], [_next/static], [_next/image],
    [favicon.ico] (its dot unescaped) and [$], followed by [.] starred. *)
Definition matcher : regex :=
  Seq (Char "/")
    (Seq (NegLookahead
            (Alt (literal "api")
               (Alt (literal "_next/static")
                  (Alt (literal "_next/image")
                     (Alt (Seq (literal "favicon") (Seq Any (literal "ico")))
                        EndOfInput)))))
         (Star Any)).

(** The middleware runs on a request when the matcher matches the whole
    pathname. *)
Definition applies (pathname : string) : bool :=
  matches matcher pathname (λ rest, bool_decide (rest = "")).

(** The comment above the matcher, read as a predicate: every path is
    protected except the root and what begins with one of these. *)
Definition exempt : list string :=
  [ "api"; "_next/static"; "_next/image"; "favicon.ico" ].

Definition protected_by_comment (pathname : string) : bool :=
  match pathname with
  | String c rest =>
      bool_decide (c = "/"%char)
      && negb (bool_decide (rest = ""))
      && forallb (λ p, negb (String.prefix p rest)) exempt
  | EmptyString => false
  end.

(** [strip p s] is what follows [p] in [s], when [s] begins with [p]. *)
Fixpoint strip (p s : string) : option string :=
  match p with
  | EmptyString => Some s
  | String c p' =>
      match s with
      | String c' s' => if bool_decide (c' = c) then strip p' s' else None
      | EmptyString => None
      end
  end.

(** What the matcher exempts through its unescaped dot: "favicon", any one
    character that is not a line terminator, "ico". *)
Definition favicon_any (rest : string) : bool :=
  match strip "favicon" rest with
  | Some (String c after) => negb (line_terminator c) && String.prefix "ico" after
  | _ => false
  end.

Definition no_line_terminator (s : string) : bool :=
  forallb (λ c, negb (line_terminator c)) (String.list_ascii_of_string s).

End Middleware.

(** ** WorkFlow.tsx (the card of the workflow list) *)
Module WorkFlowCard.

(** [getStepIcon] of the list: a [switch] with five cases and a default. *)
Definition getStepIcon (type : string) : Canvas.Icon :=
  if decide (type = "form") then Canvas.Users
  else if decide (type = "email") then Canvas.Mail
  else if decide (type = "document") then Canvas.FileText
  else if decide (type = "payment") then Canvas.DollarSign
  else if decide (type = "calendar") then Canvas.Calendar
  else Canvas.Zap.


End WorkFlowCard.

(** ** FormPage.tsx *)
Module Form.

Inductive FieldType :=
  | text | email | phone | textarea | select | date | file | number.

Record FormField := {
  id : string;
  type : FieldType;
  label : string;
  placeholder : option string;
  required : bool;
  options : option (list string);
}.

Record State := {
  formTitle : string;
  formDescription : string;
  fields : list FormField;
}.

(** The arguments of the three [useState] calls. *)
Definition initial : State :=
  {| formTitle := "";
     formDescription := "";
     fields :=
       [ {| id := "1"; type := text; label := "Full Name";
            placeholder := Some "Enter your full name";
            required := true; options := None |};
         {| id := "2"; type := email; label := "Email Address";
            placeholder := Some "your@email.com";
            required := true; options := None |} ] |}.

Definition newline : ascii := "010"%char.

(** [Array.prototype.join] with a one-character separator. *)
Fixpoint join (sep : ascii) (l : list string) : string :=
  match l with
  | [] => ""
  | [s] => s
  | s :: rest => s +:+ String sep (join sep rest)
  end.

(** [String.prototype.split] with a one-character separator: the pieces
    between the separators, empty pieces included, so that the empty
    string gives one empty piece. *)
Fixpoint split (sep : ascii) (s : string) : list string :=
  match s with
  | EmptyString => [ "" ]
  | String c s' =>
      if decide (c = sep) then "" :: split sep s'
      else match split sep s' with
           | piece :: pieces => String c piece :: pieces
           | [] => [ String c "" ]
           end
  end.

(** [Boolean] on a string: the empty string is the one that is falsy. *)
Definition Boolean (s : string) : bool := negb (bool_decide (s = "")).

(** The value shown in the textarea: the options joined with a line feed,
    or the empty string when that is falsy ([options] undefined, or the
    joined string empty). *)
Definition textarea_value (opts : option (list string)) : string :=
  match opts with
  | Some l => if Boolean (join newline l) then join newline l else ""
  | None => ""
  end.

(** The options stored on a change of the textarea: the value split at
    line feeds, then [filter(Boolean)]. *)
Definition parse_options (value : string) : list string :=
  List.filter Boolean (split newline value).

Definition contains (c : ascii) (s : string) : Prop :=
  c ∈ String.list_ascii_of_string s.

(** [Partial<FormField>]: a key that is absent is [None]. *)
Record FieldUpdates := {
  new_id : option string;
  new_type : option FieldType;
  new_label : option string;
  new_placeholder : option (option string);
  new_required : option bool;
  new_options : option (option (list string));
}.

(** [{ ...field, ...updates }] *)
Definition spread_field (field : FormField) (updates : FieldUpdates) : FormField :=
  {| id := default (id field) (new_id updates);
     type := default (type field) (new_type updates);
     label := default (label field) (new_label updates);
     placeholder := default (placeholder field) (new_placeholder updates);
     required := default (required field) (new_required updates);
     options := default (options field) (new_options updates) |}.

Definition setFields (l : list FormField) (st : State) : State :=
  {| formTitle := formTitle st; formDescription := formDescription st; fields := l |}.

Definition FieldType_to_string (t : FieldType) : string :=
  match t with
  | text => "text"
  | email => "email"
  | phone => "phone"
  | textarea => "textarea"
  | select => "select"
  | date => "date"
  | file => "file"
  | number => "number"
  end.

(** [now] is the value of [Date.now()]. *)
Definition addField (now : N) (t : FieldType) (st : State) : State :=
  let newField :=
    {| id := pretty now;
       type := t;
       label := "New " +:+ FieldType_to_string t +:+ " field";
       placeholder := Some "";
       required := false;
       options := match t with
                  | select => Some [ "Option 1"; "Option 2" ]
                  | _ => None
                  end |} in
  setFields (fields st ++ [ newField ]) st.

Definition updateField (fieldId : string) (updates : FieldUpdates) (st : State) : State :=
  setFields
    ((λ field, if decide (id field = fieldId) then spread_field field updates else field)
       <$> fields st)
    st.

Definition removeField (fieldId : string) (st : State) : State :=
  setFields (filter (λ field, id field ≠ fieldId) (fields st)) st.

(** The [onChange] of the options textarea of a field. *)
Definition changeOptions (fieldId : string) (value : string) (st : State) : State :=
  updateField fieldId
    {| new_id := None; new_type := None; new_label := None; new_placeholder := None;
       new_required := None; new_options := Some (Some (parse_options value)) |}
    st.

(** The preview card: [fields.slice(0, 3)], and the count of the line
    "+n more fields...", shown when there are more than three. *)
Definition preview_fields (st : State) : list FormField := take 3 (fields st).

Definition preview_more (st : State) : option nat :=
  if decide (3 < length (fields st))%nat then Some (length (fields st) - 3)%nat else None.

End Form.

(** ** The sign-up page ([SignUpPage]) *)
Module SignUp.

(** A JavaScript string as its UTF-16 code units, so that [length] is the
    [.length] of the source. *)
Definition jsstring : Type := list N.

(** The code units [String.prototype.trim] strips: WhiteSpace (tab,
    vertical tab, form feed, space, no-break space, the byte order mark and
    the space separators of Unicode) and LineTerminator. *)
Definition WhiteSpace (c : N) : bool :=
  bool_decide (c ∈ [ 9; 10; 11; 12; 13; 32; 160; 5760; 8232; 8233; 8239; 8287;
                     12288; 65279 ]%N)
  || (8192 <=? c)%N && (c <=? 8202)%N.

Fixpoint trimStart (s : jsstring) : jsstring :=
  match s with
  | c :: s' => if WhiteSpace c then trimStart s' else s
  | [] => []
  end.

Definition trimEnd (s : jsstring) : jsstring := reverse (trimStart (reverse s)).

Definition trim (s : jsstring) : jsstring := trimEnd (trimStart s).

(** [!s] for a string: the empty string is the falsy one. *)
Definition falsy (s : jsstring) : bool := bool_decide (s = []).

Record FormData := {
  name : jsstring;
  email : jsstring;
  password : jsstring;
  confirmPassword : jsstring;
}.

(** The [useState] cells of the page, the pending timers (each with the
    form data its callback captured) and the form data written by
    [console.log]. *)
Record State := {
  formData : FormData;
  showPassword : bool;
  showConfirmPassword : bool;
  isLoading : option string;
  showEmailForm : bool;
  agreedToTerms : bool;
  errors : list string;
  timers : list FormData;
  console : list FormData;
}.

Definition initial : State :=
  {| formData := {| name := []; email := []; password := []; confirmPassword := [] |};
     showPassword := false; showConfirmPassword := false; isLoading := None;
     showEmailForm := false; agreedToTerms := false; errors := [];
     timers := []; console := [] |}.

Definition setErrors (l : list string) (st : State) : State :=
  {| formData := formData st; showPassword := showPassword st;
     showConfirmPassword := showConfirmPassword st; isLoading := isLoading st;
     showEmailForm := showEmailForm st; agreedToTerms := agreedToTerms st;
     errors := l; timers := timers st; console := console st |}.

Definition setIsLoading (v : option string) (st : State) : State :=
  {| formData := formData st; showPassword := showPassword st;
     showConfirmPassword := showConfirmPassword st; isLoading := v;
     showEmailForm := showEmailForm st; agreedToTerms := agreedToTerms st;
     errors := errors st; timers := timers st; console := console st |}.

Definition setTimeout (captured : FormData) (st : State) : State :=
  {| formData := formData st; showPassword := showPassword st;
     showConfirmPassword := showConfirmPassword st; isLoading := isLoading st;
     showEmailForm := showEmailForm st; agreedToTerms := agreedToTerms st;
     errors := errors st; timers := timers st ++ [ captured ]; console := console st |}.

(** [newErrors] at the end of [validateForm]: one [push] per failed check,
    in the order of the checks. *)
Definition newErrors (st : State) : list string :=
  (if falsy (trim (name (formData st))) then [ "Name is required" ] else [])
  ++ (if falsy (trim (email (formData st))) then [ "Email is required" ] else [])
  ++ (if decide (length (password (formData st)) < 8)%nat
      then [ "Password must be at least 8 characters" ] else [])
  ++ (if decide (password (formData st) ≠ confirmPassword (formData st))
      then [ "Passwords do not match" ] else [])
  ++ (if negb (agreedToTerms st)
      then [ "You must agree to the terms and conditions" ] else []).

(** [validateForm]: the state with the errors set, and the value returned. *)
Definition validateForm (st : State) : State * bool :=
  (setErrors (newErrors st) st, bool_decide (length (newErrors st) = 0%nat)).


End SignUp.

(** ** The sign-in page ([SignInPage]) *)
Module SignIn.

(** [getErrorMessage]: a [switch] on the error code of the query string
    ([null] when there is none); the default case answers any other
    truthy code with a general message. *)
Definition getErrorMessage (error : option string) : option string :=
  if decide (error = Some "OAuthSignin")
  then Some "Error occurred during OAuth sign in. Please try again."
  else if decide (error = Some "OAuthCallback")
  then Some "Error occurred during OAuth callback. Please try again."
  else if decide (error = Some "OAuthCreateAccount")
  then Some "Could not create OAuth account. Please try again."
  else if decide (error = Some "EmailCreateAccount")
  then Some "Could not create email account. Please try again."
  else if decide (error = Some "Callback")
  then Some "Error occurred during callback. Please try again."
  else if decide (error = Some "OAuthAccountNotLinked")
  then Some "Email already exists with different provider. Please sign in with your original provider."
  else if decide (error = Some "EmailSignin")
  then Some "Check your email for the sign in link."
  else if decide (error = Some "CredentialsSignin")
  then Some "Invalid credentials. Please check your email and password."
  else if decide (error = Some "SessionRequired")
  then Some "Please sign in to access this page."
  else if Editor.truthy error
  then Some "An error occurred during sign in. Please try again."
  else None.

End SignIn.

(** * Properties *)

(** ** Loading a workflow (WorkflowEditor.tsx, [useEffect]) *)

Lemma truthy_spec (workflowId : option string) :
  Editor.truthy workflowId = true ↔ ∃ s, workflowId = Some s ∧ s ≠ "".
Proof.
  destruct workflowId as [s|]; simpl.
  - rewrite bool_decide_eq_true. split; [eauto | intros (? & [= <-] & ?); done].
  - split; [done | intros (? & [=] & _)].
Qed.

(** C1, as stated, fails: the empty string is a defined [workflowId], the
    guard of the effect reads it as falsy, and the editor keeps the empty
    draft of its first render instead of the mock workflow. *)
Lemma mount_edit_empty_workflowId :
  Editor.workflow (Editor.mount Editor.edit (Some "")) = Editor.workflow Editor.initial
  ∧ Editor.workflow (Editor.mount Editor.edit (Some "")) ≠ Editor.mockWorkflowData.
Proof. split; [reflexivity | discriminate]. Qed.

(** C1, amended: mounting the editor in mode "edit" with a non-empty
    [workflowId] gives the workflow [mockWorkflowData], whatever the id is:
    named "Web Design Onboarding", active, with the steps step-1, step-2,
    step-3 and the connections step-1 to step-2 and step-2 to step-3.  The
    other cells keep their initial values, and the effect loads the same
    value over any earlier state. *)
Theorem mount_edit_loads_mock (workflowId : string) :
  workflowId ≠ "" →
  Editor.workflow (Editor.mount Editor.edit (Some workflowId)) = Editor.mockWorkflowData
  ∧ Editor.mount Editor.edit (Some workflowId)
    = Editor.setWorkflow (λ _, Editor.mockWorkflowData) Editor.initial
  ∧ (∀ st, Editor.workflow (Editor.effect Editor.edit (Some workflowId) st)
           = Editor.mockWorkflowData)
  ∧ wf_name Editor.mockWorkflowData = "Web Design Onboarding"
  ∧ wf_status Editor.mockWorkflowData = active
  ∧ step_id <$> steps Editor.mockWorkflowData = [ "step-1"; "step-2"; "step-3" ]
  ∧ connections Editor.mockWorkflowData
    = [ {| conn_from := "step-1"; conn_to := "step-2" |};
        {| conn_from := "step-2"; conn_to := "step-3" |} ].
Proof.
  intros Hid.
  assert (Ht : Editor.truthy (Some workflowId) = true)
    by (apply truthy_spec; eauto).
  unfold Editor.mount, Editor.effect. rewrite Ht.
  repeat split; reflexivity.
Qed.

Lemma mount_edit_loads_mock_witness :
  "42" ≠ ""
  ∧ Editor.workflow (Editor.mount Editor.edit (Some "42")) = Editor.mockWorkflowData.
Proof.
  split; [discriminate |].
  apply (mount_edit_loads_mock "42"). discriminate.
Defined.

(** ** Save and publish (WorkflowEditor.tsx) *)

Lemma run_callback_workflow (cb : Editor.TimerCallback) (st : Editor.State) :
  Editor.workflow (Editor.run_callback cb st) = Editor.workflow st.
Proof. destruct cb; reflexivity. Qed.

Lemma fire_workflow (n : nat) (st : Editor.State) :
  Editor.workflow (Editor.fire n st) = Editor.workflow st.
Proof.
  unfold Editor.fire. destruct (Editor.timers st !! n); [|done].
  by rewrite run_callback_workflow.
Qed.

Lemma fire_last (t : Editor.Timer) (st : Editor.State) (ts : list Editor.Timer) :
  Editor.timers st = ts ++ [t] →
  Editor.fire (length ts) st
  = Editor.run_callback (Editor.timer_callback t) (Editor.set_timers ts st).
Proof.
  intros Hts. unfold Editor.fire. rewrite Hts.
  rewrite lookup_app_r, Nat.sub_diag by lia. simpl.
  f_equal. f_equal.
  by rewrite delete_middle, app_nil_r.
Qed.

(** C2: [handleSave] leaves the workflow (name, description, status, steps,
    connections), the selection and the library flag as they were; it sets
    [isLoading] and schedules one timer.  When that timer fires, it writes
    one console line and clears [isLoading], and the workflow is still the
    one before the save; no timer callback ever changes the workflow. *)
Theorem handleSave_frame (st : Editor.State) :
  let saving := Editor.handleSave st in
  let saved := Editor.fire (length (Editor.timers st)) saving in
  Editor.workflow saving = Editor.workflow st
  ∧ Editor.selectedStep saving = Editor.selectedStep st
  ∧ Editor.showStepLibrary saving = Editor.showStepLibrary st
  ∧ Editor.console saving = Editor.console st
  ∧ Editor.isLoading saving = true
  ∧ Editor.timers saving
    = Editor.timers st
      ++ [ {| Editor.timer_ms := 1000;
              Editor.timer_callback := Editor.SaveCallback (Editor.workflow st) |} ]
  ∧ saved
    = Editor.setIsLoading false
        (Editor.console_log "Saving workflow:" (Editor.workflow st) st)
  ∧ Editor.workflow saved = Editor.workflow st
  ∧ Editor.isLoading saved = false
  ∧ (∀ n st', Editor.workflow (Editor.fire n st') = Editor.workflow st').
Proof.
  intros saving saved.
  assert (Hsaved : saved
    = Editor.setIsLoading false
        (Editor.console_log "Saving workflow:" (Editor.workflow st) st)).
  { unfold saved. erewrite fire_last by reflexivity. by destruct st. }
  repeat split; try reflexivity; try (rewrite Hsaved; reflexivity); try done.
  intros n st'. apply fire_workflow.
Qed.

(** C3: [handlePublish] sets the status to "active" and keeps id, name,
    description, steps and connections; the timer it schedules changes
    nothing in the workflow when it fires.  Publishing twice gives the
    workflow of publishing once, and publishing an active workflow gives
    the same workflow. *)
Theorem handlePublish_frame (st : Editor.State) :
  let published := Editor.handlePublish st in
  wf_status (Editor.workflow published) = active
  ∧ wf_id (Editor.workflow published) = wf_id (Editor.workflow st)
  ∧ wf_name (Editor.workflow published) = wf_name (Editor.workflow st)
  ∧ wf_description (Editor.workflow published) = wf_description (Editor.workflow st)
  ∧ steps (Editor.workflow published) = steps (Editor.workflow st)
  ∧ connections (Editor.workflow published) = connections (Editor.workflow st)
  ∧ Editor.workflow (Editor.fire (length (Editor.timers st)) published)
    = Editor.workflow published
  ∧ Editor.workflow (Editor.handlePublish published) = Editor.workflow published
  ∧ (wf_status (Editor.workflow st) = active →
     Editor.workflow published = Editor.workflow st).
Proof.
  intros published. repeat split; try reflexivity.
  - apply fire_workflow.
  - intros Hactive. unfold published, Editor.handlePublish; simpl.
    unfold Editor.set_status. destruct (Editor.workflow st); simpl in *.
    by rewrite Hactive.
Qed.

Lemma handlePublish_frame_witness :
  wf_status (Editor.workflow (Editor.mount Editor.edit (Some "1"))) = active
  ∧ Editor.workflow (Editor.handlePublish (Editor.mount Editor.edit (Some "1")))
    = Editor.workflow (Editor.mount Editor.edit (Some "1")).
Proof.
  split; [reflexivity |].
  apply (handlePublish_frame (Editor.mount Editor.edit (Some "1"))). reflexivity.
Defined.

(** ** Dragging on the canvas (WorkflowCanvas.tsx) *)

Lemma drag_event_frame (ev : Canvas.Event) (st : App.State) :
  Canvas.is_drag ev = true →
  (Canvas.handle (Editor.selectedStep st.1) ev st.2).2 = []
  ∧ (App.canvas_event ev st).1 = st.1.
Proof. destruct ev; simpl; intros; done. Qed.

(** C4: on any sequence of drag events (drag starts and drag ends in any
    order) the canvas calls none of its callback props, so neither
    [onUpdateStep] nor [onDeleteStep]; the state of the editor, and with it
    the position of every step, is the same after as before.  The one cell
    the handlers write is [draggedStep]: a drag start sets it to the step
    and a drag end resets it to null. *)
Theorem drag_events_frame (evs : list Canvas.Event) (st : App.State) :
  forallb Canvas.is_drag evs = true →
  App.canvas_calls evs st = []
  ∧ (App.canvas_events evs st).1 = st.1
  ∧ step_position <$> steps (Editor.workflow (App.canvas_events evs st).1)
    = step_position <$> steps (Editor.workflow st.1)
  ∧ (∀ d, Canvas.handleDragEnd d = None)
  ∧ (∀ stepId d, Canvas.handleDragStart stepId d = Some stepId)
  ∧ (App.canvas_events (evs ++ [Canvas.DragEnd]) st).2 = None.
Proof.
  intros Hdrag.
  assert (Hframe : App.canvas_calls evs st = []
                   ∧ (App.canvas_events evs st).1 = st.1).
  { revert st. induction evs as [|ev evs IH]; intros st; [done|].
    simpl in Hdrag. apply andb_prop in Hdrag as [Hev Hevs].
    destruct (drag_event_frame ev st Hev) as [Hcalls Hst].
    destruct (IH Hevs (App.canvas_event ev st)) as [IHcalls IHst].
    split.
    - simpl. by rewrite Hcalls, IHcalls.
    - unfold App.canvas_events in *. simpl. by rewrite IHst. }
  destruct Hframe as [Hcalls Hst].
  repeat split; try done.
  - by rewrite Hst.
  - unfold App.canvas_events. by rewrite foldl_app.
Qed.

Lemma drag_events_frame_witness :
  let st := (Editor.mount Editor.edit (Some "1"), Canvas.initial) in
  let evs := [ Canvas.DragStart "step-1"; Canvas.DragEnd; Canvas.DragStart "step-3" ] in
  forallb Canvas.is_drag evs = true
  ∧ App.canvas_calls evs st = []
  ∧ (App.canvas_events evs st).1 = st.1.
Proof.
  intros st evs. split; [reflexivity |].
  split; apply (drag_events_frame evs st); reflexivity.
Defined.

(** ** Deleting and adding steps (WorkflowEditor.tsx) *)

Lemma deleteStep_workflow (stepId : string) (st : Editor.State) :
  Editor.workflow (Editor.deleteStep stepId st)
  = {| wf_id := wf_id (Editor.workflow st);
       wf_name := wf_name (Editor.workflow st);
       wf_description := wf_description (Editor.workflow st);
       wf_status := wf_status (Editor.workflow st);
       steps := filter (λ step, step_id step ≠ stepId) (steps (Editor.workflow st));
       connections :=
         filter (λ conn, conn_from conn ≠ stepId ∧ conn_to conn ≠ stepId)
                (connections (Editor.workflow st)) |}.
Proof. unfold Editor.deleteStep. by destruct (decide _). Qed.

Lemma id_survives_filter (stepId i : string) (l : list WorkflowStep) :
  i ∈ (step_id <$> l) → i ≠ stepId →
  i ∈ (step_id <$> filter (λ step, step_id step ≠ stepId) l).
Proof.
  intros (s & -> & Hs)%list_elem_of_fmap Hne.
  apply list_elem_of_fmap. exists s. split; [done|].
  by apply list_elem_of_filter.
Qed.

Lemma deleteStep_closed (stepId : string) (st : Editor.State) :
  Editor.connections_closed (Editor.workflow st) →
  Editor.connections_closed (Editor.workflow (Editor.deleteStep stepId st)).
Proof.
  unfold Editor.connections_closed. rewrite deleteStep_workflow. simpl.
  rewrite !Forall_forall. intros Hclosed conn [[Hfrom Hto] Hin]%list_elem_of_filter.
  destruct (Hclosed conn Hin). split; by apply id_survives_filter.
Qed.

Lemma addStep_closed (now : N) (stepType : StepType) (st : Editor.State) :
  Editor.connections_closed (Editor.workflow st) →
  Editor.connections_closed (Editor.workflow (Editor.addStep now stepType st)).
Proof.
  unfold Editor.connections_closed. simpl.
  intros Hclosed. eapply Forall_impl; [exact Hclosed |].
  intros conn [Hfrom Hto].
  rewrite fmap_app. split; apply elem_of_app; by left.
Qed.

(** C6: in a workflow whose connections all run between existing steps,
    [deleteStep stepId] keeps exactly the steps whose id is not [stepId] and
    exactly the connections with neither end at [stepId], in their order,
    and the connections that remain still run between existing steps.
    [addStep] appends one step, keeps the connections and so keeps the
    invariant.  Deleting the selected step clears the selection; deleting
    another step keeps it. *)
Theorem deleteStep_keeps_connections_closed (stepId : string) (st : Editor.State) :
  Editor.connections_closed (Editor.workflow st) →
  let st' := Editor.deleteStep stepId st in
  (∀ step, step ∈ steps (Editor.workflow st')
           ↔ step ∈ steps (Editor.workflow st) ∧ step_id step ≠ stepId)
  ∧ (∀ conn, conn ∈ connections (Editor.workflow st')
             ↔ conn ∈ connections (Editor.workflow st)
               ∧ conn_from conn ≠ stepId ∧ conn_to conn ≠ stepId)
  ∧ steps (Editor.workflow st')
    = filter (λ step, step_id step ≠ stepId) (steps (Editor.workflow st))
  ∧ connections (Editor.workflow st')
    = filter (λ conn, conn_from conn ≠ stepId ∧ conn_to conn ≠ stepId)
             (connections (Editor.workflow st))
  ∧ Editor.connections_closed (Editor.workflow st')
  ∧ (∀ now stepType,
       let added := Editor.addStep now stepType st in
       length (steps (Editor.workflow added)) = S (length (steps (Editor.workflow st)))
       ∧ (∀ step, step ∈ steps (Editor.workflow st) → step ∈ steps (Editor.workflow added))
       ∧ connections (Editor.workflow added) = connections (Editor.workflow st)
       ∧ Editor.connections_closed (Editor.workflow added))
  ∧ (Editor.selectedStep st = Some stepId → Editor.selectedStep st' = None)
  ∧ (Editor.selectedStep st ≠ Some stepId →
     Editor.selectedStep st' = Editor.selectedStep st).
Proof.
  intros Hclosed st'. unfold st'. split_and!.
  - intros step. rewrite deleteStep_workflow. simpl.
    rewrite list_elem_of_filter. tauto.
  - intros conn. rewrite deleteStep_workflow. simpl.
    rewrite list_elem_of_filter. tauto.
  - by rewrite deleteStep_workflow.
  - by rewrite deleteStep_workflow.
  - by apply deleteStep_closed.
  - intros now stepType. split_and!.
    + simpl. rewrite length_app. simpl. lia.
    + simpl. intros step Hin. apply elem_of_app. by left.
    + done.
    + by apply addStep_closed.
  - intros Hsel. unfold Editor.deleteStep. by rewrite decide_True.
  - intros Hsel. unfold Editor.deleteStep. by rewrite decide_False.
Qed.

Lemma deleteStep_keeps_connections_closed_witness :
  let st := Editor.setSelectedStep (Some "step-2") (Editor.mount Editor.edit (Some "1")) in
  Editor.connections_closed (Editor.workflow st)
  ∧ Editor.connections_closed (Editor.workflow (Editor.deleteStep "step-2" st))
  ∧ step_id <$> steps (Editor.workflow (Editor.deleteStep "step-2" st))
    = [ "step-1"; "step-3" ]
  ∧ connections (Editor.workflow (Editor.deleteStep "step-2" st)) = []
  ∧ Editor.selectedStep (Editor.deleteStep "step-2" st) = None.
Proof.
  intros st.
  assert (Hclosed : Editor.connections_closed (Editor.workflow st)).
  { apply (bool_decide_unpack _). vm_compute. exact I. }
  split; [exact Hclosed |].
  split; [apply (deleteStep_keeps_connections_closed "step-2" st Hclosed) |].
  repeat split; reflexivity.
Defined.

(** ** The step panel's buttons (StepconfigPanel.tsx) *)

Lemma panel_close_event (ev : Panel.Event) (st : Editor.State) :
  (∀ step, Panel.handle step ev = [ Panel.onClose ]) →
  Editor.workflow (App.panel_event ev st) = Editor.workflow st
  ∧ Editor.isLoading (App.panel_event ev st) = Editor.isLoading st
  ∧ Editor.showStepLibrary (App.panel_event ev st) = Editor.showStepLibrary st
  ∧ Editor.timers (App.panel_event ev st) = Editor.timers st
  ∧ Editor.console (App.panel_event ev st) = Editor.console st.
Proof.
  intros Hclose. unfold App.panel_event.
  destruct (Editor.selectedStepData st) as [step|]; [|done].
  by rewrite Hclose.
Qed.

(** C7: in the panel "Save Changes" and "Cancel" are one operation: each
    calls [onClose] once and nothing else.  In the editor either click
    gives the same state, with the workflow, the loading flag, the library
    flag, the timers and the console as before and the selection cleared.
    So what was edited through [onUpdateStep] before the click is still in
    the workflow after "Cancel". *)
Theorem save_changes_is_cancel (step : WorkflowStep) (st : Editor.State) :
  Panel.handle step Panel.ClickSaveChanges = [ Panel.onClose ]
  ∧ Panel.handle step Panel.ClickCancel = [ Panel.onClose ]
  ∧ App.panel_event Panel.ClickSaveChanges st = App.panel_event Panel.ClickCancel st
  ∧ Editor.workflow (App.panel_event Panel.ClickSaveChanges st) = Editor.workflow st
  ∧ Editor.workflow (App.panel_event Panel.ClickCancel st) = Editor.workflow st
  ∧ (∀ evs,
       Editor.workflow (App.panel_event Panel.ClickCancel (App.panel_events evs st))
       = Editor.workflow (App.panel_events evs st))
  ∧ (is_Some (Editor.selectedStepData st) →
     App.panel_event Panel.ClickCancel st = Editor.setSelectedStep None st
     ∧ Editor.selectedStep (App.panel_event Panel.ClickSaveChanges st) = None).
Proof.
  split_and!; try reflexivity.
  - by apply panel_close_event.
  - by apply panel_close_event.
  - intros evs. by apply panel_close_event.
  - intros [shown Hshown]. unfold App.panel_event. rewrite Hshown. done.
Qed.

Lemma save_changes_is_cancel_witness :
  let st := Editor.setSelectedStep (Some "step-1") (Editor.mount Editor.edit (Some "1")) in
  let edited := App.panel_events [ Panel.ChangeField Panel.name "Kickoff" ] st in
  is_Some (Editor.selectedStepData edited)
  ∧ step_name <$> steps (Editor.workflow edited)
    = [ "Kickoff"; "Welcome Email"; "Send Contract" ]
  ∧ App.panel_event Panel.ClickCancel edited = Editor.setSelectedStep None edited
  ∧ Editor.workflow (App.panel_event Panel.ClickCancel edited) = Editor.workflow edited.
Proof.
  intros st edited.
  assert (Hshown : is_Some (Editor.selectedStepData edited)) by (vm_compute; eauto).
  split; [exact Hshown |].
  split; [reflexivity |].
  destruct Hshown as [shown Hshown].
  split.
  - apply (save_changes_is_cancel shown edited).
    by exists shown.
  - apply (save_changes_is_cancel shown edited).
Defined.

(** ** The form builder (FormPage.tsx) *)

(** C8: a form page starts with an empty title, an empty description and
    two fields: the required text field "1" labelled "Full Name" and the
    required email field "2" labelled "Email Address".  The component takes
    no props, so the initial state is this one constant. *)
Theorem FormPage_initial_state :
  Form.formTitle Form.initial = ""
  ∧ Form.formDescription Form.initial = ""
  ∧ length (Form.fields Form.initial) = 2%nat
  ∧ (λ f, (Form.id f, Form.type f, Form.label f, Form.required f))
      <$> Form.fields Form.initial
    = [ ("1", Form.text, "Full Name", true);
        ("2", Form.email, "Email Address", true) ].
Proof. split_and!; reflexivity. Qed.

(** ** The options textarea (FormPage.tsx) *)

Section split_join.
Variable sep : ascii.

Lemma contains_String (c c' : ascii) (s : string) :
  Form.contains c (String c' s) ↔ c = c' ∨ Form.contains c s.
Proof. unfold Form.contains. simpl. apply elem_of_cons. Qed.

Lemma split_pieces (s : string) :
  Form.split sep s ≠ []
  ∧ Forall (λ piece, ¬ Form.contains sep piece) (Form.split sep s).
Proof.
  induction s as [|c s [IHne IH]]; simpl.
  - split; [done|]. constructor; [|done]. unfold Form.contains. simpl. set_solver.
  - destruct (decide (c = sep)) as [->|Hc].
    + split; [done|]. constructor; [|done]. unfold Form.contains. simpl. set_solver.
    + destruct (Form.split sep s) as [|piece pieces]; [done|].
      split; [done|]. apply Forall_cons in IH as [Hpiece Hpieces].
      constructor; [|done]. rewrite contains_String.
      intros [Heq | Hin]; [by apply Hc | by apply Hpiece].
Qed.

Lemma split_whole (s : string) :
  ¬ Form.contains sep s → Form.split sep s = [ s ].
Proof.
  induction s as [|c s IH]; [done|].
  rewrite contains_String. intros Hs. simpl.
  rewrite decide_False by naive_solver.
  rewrite IH by naive_solver. done.
Qed.

Lemma split_first (s rest : string) :
  ¬ Form.contains sep s →
  Form.split sep (s +:+ String sep rest) = s :: Form.split sep rest.
Proof.
  induction s as [|c s IH]; simpl.
  - intros _. by rewrite decide_True.
  - rewrite contains_String. intros Hs.
    rewrite decide_False by naive_solver.
    rewrite IH by naive_solver. done.
Qed.

Lemma split_join (l : list string) :
  l ≠ [] → Forall (λ s, ¬ Form.contains sep s) l →
  Form.split sep (Form.join sep l) = l.
Proof.
  intros Hne Hl. induction Hl as [|s l Hs Hl IH]; [done|].
  destruct l as [|s' l]; simpl.
  - by apply split_whole.
  - rewrite split_first by done. f_equal. by apply IH.
Qed.
End split_join.

Lemma filter_Boolean_id (l : list string) :
  Forall (λ s, s ≠ "") l → List.filter Form.Boolean l = l.
Proof.
  induction 1 as [|s l Hs Hl IH]; [done|]. simpl.
  unfold Form.Boolean at 1. rewrite bool_decide_eq_false_2 by done. simpl.
  by rewrite IH.
Qed.

Lemma textarea_value_join (l : list string) :
  Form.textarea_value (Some l) = Form.join Form.newline l.
Proof.
  simpl. unfold Form.Boolean.
  destruct (bool_decide_reflect (Form.join Form.newline l = "")) as [->|]; done.
Qed.

Lemma parse_options_normal (value : string) :
  Forall (λ s, s ≠ "" ∧ ¬ Form.contains Form.newline s) (Form.parse_options value).
Proof.
  unfold Form.parse_options.
  destruct (split_pieces Form.newline value) as [_ Hpieces].
  induction Hpieces as [|piece pieces Hpiece Hpieces IH]; simpl; [done|].
  destruct (Form.Boolean piece) eqn:Hb; [|done].
  constructor; [|done]. split; [|done].
  unfold Form.Boolean in Hb. apply negb_true_iff, bool_decide_eq_false in Hb. done.
Qed.

(** C9, as stated, fails: an option that holds a line feed is not empty,
    but the textarea value splits at that line feed, and the options parsed
    back are two. *)
Lemma options_round_trip_line_feed :
  let l := [ String "a" (String Form.newline "b") ] in
  Forall (λ s, s ≠ "") l
  ∧ Form.parse_options (Form.textarea_value (Some l)) = [ "a"; "b" ]
  ∧ Form.parse_options (Form.textarea_value (Some l)) ≠ l.
Proof. split_and!; [by repeat constructor | reflexivity | discriminate]. Qed.

(** C9, amended: for a list of options none of which is empty or holds a
    line feed, joining with line feeds and parsing back (split at line
    feeds, then drop the empty pieces) gives the list back.  Conversely a
    list that comes back unchanged has no empty option and no option with a
    line feed, so for a list with such an option the round trip does not
    hold; and whatever the textarea holds, the options parsed from it are
    non-empty and free of line feeds. *)
Theorem options_round_trip (l : list string) :
  (Forall (λ s, s ≠ "" ∧ ¬ Form.contains Form.newline s) l →
   Form.parse_options (Form.textarea_value (Some l)) = l)
  ∧ (Form.parse_options (Form.textarea_value (Some l)) = l →
     Forall (λ s, s ≠ "" ∧ ¬ Form.contains Form.newline s) l)
  ∧ (∀ value,
       Forall (λ s, s ≠ "" ∧ ¬ Form.contains Form.newline s)
              (Form.parse_options value)).
Proof.
  split_and!.
  - intros Hl. rewrite textarea_value_join. unfold Form.parse_options.
    destruct l as [|s l]; [done|].
    rewrite split_join; [| done | by eapply Forall_impl; [exact Hl | intros ? []]].
    apply filter_Boolean_id. by eapply Forall_impl; [exact Hl | intros ? []].
  - intros <-. apply parse_options_normal.
  - apply parse_options_normal.
Qed.

Lemma options_round_trip_witness :
  let l := [ "Option 1"; "Option 2" ] in
  Forall (λ s, s ≠ "" ∧ ¬ Form.contains Form.newline s) l
  ∧ Form.parse_options (Form.textarea_value (Some l)) = l.
Proof.
  intros l.
  assert (Hl : Forall (λ s, s ≠ "" ∧ ¬ Form.contains Form.newline s) l).
  { unfold Form.contains. apply (bool_decide_unpack _). vm_compute. exact I. }
  split; [exact Hl |].
  apply (options_round_trip l). exact Hl.
Defined.

(** ** The middleware matcher (middleware.ts) *)

Lemma matches_literal (p s : string) (k : string → bool) :
  Middleware.matches (Middleware.literal p) s k
  = match Middleware.strip p s with Some after => k after | None => false end.
Proof.
  revert s. induction p as [|c p IH]; intros s; simpl; [done|].
  destruct s as [|c' s]; [done|].
  destruct (bool_decide (c' = c)); simpl; [apply IH | done].
Qed.

Lemma prefix_strip (p s : string) :
  String.prefix p s
  = match Middleware.strip p s with Some _ => true | None => false end.
Proof.
  revert s. induction p as [|c p IH]; intros [|c' s]; simpl; try done.
  destruct (ascii_dec c c') as [->|Hne].
  - by rewrite bool_decide_eq_true_2.
  - by rewrite bool_decide_eq_false_2.
Qed.

Lemma matches_literal_prefix (p s : string) :
  Middleware.matches (Middleware.literal p) s (λ _, true) = String.prefix p s.
Proof. by rewrite matches_literal, prefix_strip. Qed.

Lemma matches_favicon_any (s : string) :
  Middleware.matches
    (Middleware.Seq (Middleware.literal "favicon")
       (Middleware.Seq Middleware.Any (Middleware.literal "ico")))
    s (λ _, true)
  = Middleware.favicon_any s.
Proof.
  change (Middleware.matches (Middleware.literal "favicon") s
            (λ s', Middleware.matches
                     (Middleware.Seq Middleware.Any (Middleware.literal "ico"))
                     s' (λ _, true))
          = Middleware.favicon_any s).
  rewrite matches_literal. unfold Middleware.favicon_any.
  destruct (Middleware.strip "favicon" s) as [[|c after]|]; try done.
  change (negb (Middleware.line_terminator c)
          && Middleware.matches (Middleware.literal "ico") after (λ _, true)
          = negb (Middleware.line_terminator c) && String.prefix "ico" after).
  by rewrite matches_literal_prefix.
Qed.

Lemma iterate_any (fuel : nat) (s : string) :
  (String.length s ≤ fuel)%nat →
  Middleware.iterate (Middleware.matches Middleware.Any)
    (λ rest, bool_decide (rest = "")) fuel s
  = Middleware.no_line_terminator s.
Proof.
  revert s. induction fuel as [|fuel IH]; intros s Hlen.
  - destruct s; [done | simpl in Hlen; lia].
  - destruct s as [|c s]; [done|].
    simpl in Hlen. simpl.
    rewrite bool_decide_eq_true_2 by lia.
    rewrite IH by lia.
    unfold Middleware.no_line_terminator. simpl.
    by rewrite orb_false_r.
Qed.

(** What the matcher decides, in closed form: the pathname begins with a
    slash, what follows is not empty, does not begin with "api",
    "_next/static" or "_next/image", does not begin with "favicon", one more
    character and "ico", and has no line terminator. *)
Lemma applies_closed_form (pathname : string) :
  Middleware.applies pathname
  = match pathname with
    | String c rest =>
        bool_decide (c = "/"%char)
        && (negb (String.prefix "api" rest
                  || (String.prefix "_next/static" rest
                      || (String.prefix "_next/image" rest
                          || (Middleware.favicon_any rest
                              || bool_decide (rest = "")))))
            && Middleware.no_line_terminator rest)
    | EmptyString => false
    end.
Proof.
  destruct pathname as [|c rest]; [done|].
  unfold Middleware.applies, Middleware.matcher.
  change (bool_decide (c = "/"%char)
          && (negb (Middleware.matches (Middleware.literal "api") rest (λ _, true)
                    || (Middleware.matches (Middleware.literal "_next/static") rest (λ _, true)
                        || (Middleware.matches (Middleware.literal "_next/image") rest (λ _, true)
                            || (Middleware.matches
                                  (Middleware.Seq (Middleware.literal "favicon")
                                     (Middleware.Seq Middleware.Any (Middleware.literal "ico")))
                                  rest (λ _, true)
                                || Middleware.matches Middleware.EndOfInput rest (λ _, true)))))
              && Middleware.iterate (Middleware.matches Middleware.Any)
                   (λ rest', bool_decide (rest' = "")) (String.length rest) rest)
          = bool_decide (c = "/"%char)
            && (negb (String.prefix "api" rest
                      || (String.prefix "_next/static" rest
                          || (String.prefix "_next/image" rest
                              || (Middleware.favicon_any rest
                                  || bool_decide (rest = "")))))
                && Middleware.no_line_terminator rest)).
  rewrite !matches_literal_prefix, matches_favicon_any, iterate_any by lia.
  by destruct rest.
Qed.

(** On a pathname without line terminators the matcher and its comment
    disagree only through the dot of [favicon.ico]: wherever that dot is
    read as a dot, the middleware applies exactly to the paths the comment
    protects. *)
Lemma applies_agrees_with_comment (c : ascii) (rest : string) :
  Middleware.no_line_terminator (String c rest) = true →
  Middleware.favicon_any rest = String.prefix "favicon.ico" rest →
  Middleware.applies (String c rest) = Middleware.protected_by_comment (String c rest).
Proof.
  intros Hline Hdot. rewrite applies_closed_form.
  unfold Middleware.protected_by_comment, Middleware.exempt.
  cbn [forallb]. rewrite Hdot.
  unfold Middleware.no_line_terminator in *. cbn [String.list_ascii_of_string forallb] in Hline.
  apply andb_prop in Hline as [_ ->].
  destruct (bool_decide (c = "/"%char)), (bool_decide (rest = "")),
    (String.prefix "api" rest), (String.prefix "_next/static" rest),
    (String.prefix "_next/image" rest), (String.prefix "favicon.ico" rest); done.
Qed.

Example applies_agrees_with_comment_dashboard :
  Middleware.applies "/dashboard/workflows" = true
  ∧ Middleware.protected_by_comment "/dashboard/workflows" = true.
Proof.
  split; [| reflexivity].
  rewrite (applies_agrees_with_comment "/" "dashboard/workflows"); reflexivity.
Qed.

(** The paths the comment lists are exempt, and so is what begins with one
    of them. *)
Example applies_exempt_paths :
  Middleware.applies
    <$> [ "/"; "/api"; "/api/auth/session"; "/apiary"; "/_next/static/chunks/main.js";
          "/_next/image"; "/favicon.ico" ]
  = [ false; false; false; false; false; false; false ].
Proof. reflexivity. Qed.

(** C5 does not hold of the matcher: the dot of [favicon.ico] is not escaped
    and stands for any character, so the path /faviconXico, which begins
    with none of "api", "_next/static", "_next/image", "favicon.ico" and is
    not the root, is exempt from the middleware although the claim and the
    comment above the matcher protect it. *)
Theorem matcher_unescaped_dot :
  Middleware.applies "/faviconXico" = false
  ∧ Middleware.protected_by_comment "/faviconXico" = true
  ∧ Middleware.applies "/favicon.ico" = false
  ∧ Middleware.protected_by_comment "/favicon.ico" = false.
Proof. split_and!; reflexivity. Qed.

(** * Further properties of the editor (WorkflowEditor.tsx) *)

Lemma filter_Forall_id {A} (P : A → Prop) `{!∀ a, Decision (P a)} (l : list A) :
  Forall P l → filter P l = l.
Proof.
  induction 1 as [|a l Ha Hl IH]; [done|].
  by rewrite filter_cons_True, IH.
Qed.

Lemma filter_Forall_nil {A} (P : A → Prop) `{!∀ a, Decision (P a)} (l : list A) :
  Forall (λ a, ¬ P a) l → filter P l = [].
Proof.
  induction 1 as [|a l Ha Hl IH]; [done|].
  by rewrite filter_cons_False.
Qed.

Lemma absent_id_Forall (stepId : string) (l : list WorkflowStep) :
  stepId ∉ (step_id <$> l) → Forall (λ step, step_id step ≠ stepId) l.
Proof.
  intros Habsent. apply Forall_forall. intros step Hin Heq.
  apply Habsent, list_elem_of_fmap. eauto.
Qed.

Lemma closed_absent_connections (stepId : string) (w : WorkflowData) :
  Editor.connections_closed w → stepId ∉ (step_id <$> steps w) →
  Forall (λ conn, conn_from conn ≠ stepId ∧ conn_to conn ≠ stepId) (connections w).
Proof.
  intros Hclosed Habsent. eapply Forall_impl; [exact Hclosed |].
  intros conn [Hfrom Hto]. split; intros <-; done.
Qed.

Lemma State_eta (st : Editor.State) (w : WorkflowData) (sel : option string) :
  w = Editor.workflow st → sel = Editor.selectedStep st →
  {| Editor.workflow := w; Editor.selectedStep := sel;
     Editor.isLoading := Editor.isLoading st;
     Editor.showStepLibrary := Editor.showStepLibrary st;
     Editor.timers := Editor.timers st; Editor.console := Editor.console st |} = st.
Proof. destruct st; simpl; by intros -> ->. Qed.

Lemma WorkflowData_eta (w : WorkflowData) (ss : list WorkflowStep) (cs : list Connection) :
  ss = steps w → cs = connections w →
  {| wf_id := wf_id w; wf_name := wf_name w; wf_description := wf_description w;
     wf_status := wf_status w; steps := ss; connections := cs |} = w.
Proof. destruct w; simpl; by intros -> ->. Qed.

Lemma updateStep_steps (stepId : string) (updates : StepUpdates) (st : Editor.State) :
  steps (Editor.workflow (Editor.updateStep stepId updates st))
  = (λ step, if decide (step_id step = stepId) then spread_step step updates else step)
      <$> steps (Editor.workflow st).
Proof. reflexivity. Qed.

Lemma updateStep_ids (stepId : string) (updates : StepUpdates) (st : Editor.State) :
  upd_id updates = None →
  step_id <$> steps (Editor.workflow (Editor.updateStep stepId updates st))
  = step_id <$> steps (Editor.workflow st).
Proof.
  intros Hid. rewrite updateStep_steps, <- list_fmap_compose.
  apply list_fmap_ext. intros i step _. simpl.
  destruct (decide _); [|done]. simpl. by rewrite Hid.
Qed.

Lemma updateStep_closed (stepId : string) (updates : StepUpdates) (st : Editor.State) :
  upd_id updates = None →
  Editor.connections_closed (Editor.workflow st) →
  Editor.connections_closed (Editor.workflow (Editor.updateStep stepId updates st)).
Proof.
  intros Hid. unfold Editor.connections_closed.
  rewrite updateStep_ids by done. done.
Qed.

(** Updating a step that is not there changes nothing: [updateStep] with an
    id that no step has gives the state back. *)
Theorem updateStep_absent (stepId : string) (updates : StepUpdates) (st : Editor.State) :
  stepId ∉ (step_id <$> steps (Editor.workflow st)) →
  Editor.updateStep stepId updates st = st.
Proof.
  intros Habsent. unfold Editor.updateStep, Editor.setWorkflow, Editor.set_steps.
  apply State_eta; [|done]. apply WorkflowData_eta; [|done].
  rewrite <- (list_fmap_id (steps (Editor.workflow st))) at 2.
  apply list_fmap_ext. intros i step Hstep. simpl.
  rewrite decide_False; [done|]. intros <-. apply Habsent.
  apply list_elem_of_fmap. exists step. split; [done|].
  by eapply list_elem_of_lookup_2.
Qed.

Lemma updateStep_absent_witness :
  let st := Editor.mount Editor.edit (Some "1") in
  let updates :=
    {| upd_id := None; upd_type := None; upd_name := Some "Renamed";
       upd_description := None; upd_config := None; upd_position := None |} in
  ("step-9" ∉ (step_id <$> steps (Editor.workflow st)))
  ∧ Editor.updateStep "step-9" updates st = st.
Proof.
  intros st updates.
  assert (Habsent : "step-9" ∉ (step_id <$> steps (Editor.workflow st))).
  { apply (bool_decide_unpack _). vm_compute. exact I. }
  split; [exact Habsent |].
  apply (updateStep_absent "step-9" updates st). exact Habsent.
Defined.

(** An update that carries no id (the panel sends none) touches only the
    steps with the given id: the ids and the number of steps, the steps
    with another id, the connections, every other field of the workflow and
    every other cell stay, and connections that ran between existing steps
    still do. *)
Theorem updateStep_frame (stepId : string) (updates : StepUpdates) (st : Editor.State) :
  upd_id updates = None →
  let st' := Editor.updateStep stepId updates st in
  step_id <$> steps (Editor.workflow st') = step_id <$> steps (Editor.workflow st)
  ∧ length (steps (Editor.workflow st')) = length (steps (Editor.workflow st))
  ∧ filter (λ step, step_id step ≠ stepId) (steps (Editor.workflow st'))
    = filter (λ step, step_id step ≠ stepId) (steps (Editor.workflow st))
  ∧ connections (Editor.workflow st') = connections (Editor.workflow st)
  ∧ wf_name (Editor.workflow st') = wf_name (Editor.workflow st)
  ∧ wf_description (Editor.workflow st') = wf_description (Editor.workflow st)
  ∧ wf_status (Editor.workflow st') = wf_status (Editor.workflow st)
  ∧ Editor.selectedStep st' = Editor.selectedStep st
  ∧ Editor.isLoading st' = Editor.isLoading st
  ∧ (Editor.connections_closed (Editor.workflow st) →
     Editor.connections_closed (Editor.workflow st')).
Proof.
  intros Hid. split_and!; try reflexivity.
  - by apply updateStep_ids.
  - rewrite updateStep_steps. apply length_fmap.
  - rewrite updateStep_steps.
    induction (steps (Editor.workflow st)) as [|step l IH]; [done|].
    rewrite fmap_cons. destruct (decide (step_id step = stepId)) as [Heq|Hne].
    + rewrite !filter_cons_False; [done | naive_solver |].
      unfold spread_step. simpl. rewrite Hid. simpl. naive_solver.
    + rewrite !filter_cons_True by done. by rewrite IH.
  - by apply updateStep_closed.
Qed.

Lemma updateStep_frame_witness :
  let st := Editor.mount Editor.edit (Some "1") in
  let updates :=
    {| upd_id := None; upd_type := None; upd_name := Some "Renamed";
       upd_description := None; upd_config := None; upd_position := None |} in
  upd_id updates = None
  ∧ step_id <$> steps (Editor.workflow (Editor.updateStep "step-2" updates st))
    = step_id <$> steps (Editor.workflow st)
  ∧ step_name <$> steps (Editor.workflow (Editor.updateStep "step-2" updates st))
    = [ "Project Intake Form"; "Renamed"; "Send Contract" ].
Proof.
  intros st updates. split; [reflexivity |].
  split; [| reflexivity].
  apply (updateStep_frame "step-2" updates st). reflexivity.
Defined.

Lemma addStep_steps (now : N) (stepType : StepType) (st : Editor.State) :
  steps (Editor.workflow (Editor.addStep now stepType st))
  = steps (Editor.workflow st)
    ++ [ Editor.newStep now stepType (length (steps (Editor.workflow st))) ].
Proof. reflexivity. Qed.

(** After [addStep] the panel shows the first step that has the new id: the
    new step when the id is fresh, and an older step when one with the same
    id (added in the same millisecond) is already there.  The new step is
    the last one, named after its type, with an empty config, placed at
    200 + 50 times the number of steps there were; the library is closed. *)
Theorem addStep_selects (now : N) (stepType : StepType) (st : Editor.State) :
  let count := length (steps (Editor.workflow st)) in
  let st' := Editor.addStep now stepType st in
  Editor.selectedStep st' = Some ("step-" +:+ pretty now)
  ∧ Editor.selectedStepData st'
    = Some (default (Editor.newStep now stepType count)
                    (Canvas.find_step (Editor.workflow st) ("step-" +:+ pretty now)))
  ∧ last (steps (Editor.workflow st')) = Some (Editor.newStep now stepType count)
  ∧ step_position (Editor.newStep now stepType count)
    = {| x := 200 + 50 * Z.of_nat count; y := 200 + 50 * Z.of_nat count |}
  ∧ Editor.showStepLibrary st' = false.
Proof.
  intros count st'. subst count st'. split_and!; try reflexivity.
  - unfold Editor.selectedStepData, Canvas.find_step. simpl.
    fold (Editor.newStep now stepType (length (steps (Editor.workflow st)))).
    destruct (list_find (λ s, step_id s = "step-" +:+ pretty now)
                (steps (Editor.workflow st))) as [[i found]|] eqn:Hfind.
    + erewrite list_find_app_l by exact Hfind. done.
    + rewrite list_find_app_r by exact Hfind. simpl.
      rewrite decide_True by done. done.
  - rewrite addStep_steps. apply last_snoc.
  - unfold Editor.newStep. simpl. f_equal; lia.
Qed.

(** Adding a step whose id is fresh and deleting it again gives the
    workflow back, when its connections ran between existing steps; the
    selection is cleared. *)
Theorem addStep_deleteStep (now : N) (stepType : StepType) (st : Editor.State) :
  ("step-" +:+ pretty now) ∉ (step_id <$> steps (Editor.workflow st)) →
  Editor.connections_closed (Editor.workflow st) →
  let st' := Editor.deleteStep ("step-" +:+ pretty now) (Editor.addStep now stepType st) in
  Editor.workflow st' = Editor.workflow st
  ∧ Editor.selectedStep st' = None.
Proof.
  intros Hfresh Hclosed. split.
  - rewrite deleteStep_workflow.
    change (Editor.workflow (Editor.addStep now stepType st))
      with (Editor.set_steps
              (λ prev, prev ++ [ Editor.newStep now stepType
                                   (length (steps (Editor.workflow st))) ])
              (Editor.workflow st)).
    unfold Editor.set_steps.
    cbn [wf_id wf_name wf_description wf_status steps connections].
    apply WorkflowData_eta.
    + rewrite filter_app.
      rewrite filter_Forall_id by by apply absent_id_Forall.
      rewrite filter_cons_False by (simpl; naive_solver).
      by rewrite app_nil_r.
    + apply filter_Forall_id. by apply closed_absent_connections.
  - unfold Editor.deleteStep. by rewrite decide_True.
Qed.

Lemma addStep_deleteStep_witness :
  let st := Editor.mount Editor.edit (Some "1") in
  (("step-" +:+ pretty 1700000000000%N) ∉ (step_id <$> steps (Editor.workflow st)))
  ∧ Editor.connections_closed (Editor.workflow st)
  ∧ Editor.workflow
      (Editor.deleteStep ("step-" +:+ pretty 1700000000000%N)
         (Editor.addStep 1700000000000%N payment st))
    = Editor.workflow st.
Proof.
  intros st.
  assert (Hfresh : ("step-" +:+ pretty 1700000000000%N)
                   ∉ (step_id <$> steps (Editor.workflow st))).
  { apply (bool_decide_unpack _). vm_compute. exact I. }
  assert (Hclosed : Editor.connections_closed (Editor.workflow st)).
  { apply (bool_decide_unpack _). vm_compute. exact I. }
  split; [exact Hfresh |]. split; [exact Hclosed |].
  apply (addStep_deleteStep 1700000000000%N payment st Hfresh Hclosed).
Defined.

(** Deleting a step that is not there leaves the workflow as it is, when its
    connections ran between existing steps; a selection that pointed at the
    missing id is cleared, any other is kept. *)
Theorem deleteStep_absent (stepId : string) (st : Editor.State) :
  stepId ∉ (step_id <$> steps (Editor.workflow st)) →
  Editor.connections_closed (Editor.workflow st) →
  Editor.workflow (Editor.deleteStep stepId st) = Editor.workflow st
  ∧ Editor.selectedStep (Editor.deleteStep stepId st)
    = (if decide (Editor.selectedStep st = Some stepId) then None
       else Editor.selectedStep st).
Proof.
  intros Habsent Hclosed. split.
  - rewrite deleteStep_workflow. apply WorkflowData_eta.
    + apply filter_Forall_id. by apply absent_id_Forall.
    + apply filter_Forall_id. by apply closed_absent_connections.
  - unfold Editor.deleteStep. by destruct (decide _).
Qed.

Lemma deleteStep_absent_witness :
  let st := Editor.mount Editor.edit (Some "1") in
  ("step-9" ∉ (step_id <$> steps (Editor.workflow st)))
  ∧ Editor.connections_closed (Editor.workflow st)
  ∧ Editor.workflow (Editor.deleteStep "step-9" st) = Editor.workflow st.
Proof.
  intros st.
  assert (Habsent : "step-9" ∉ (step_id <$> steps (Editor.workflow st))).
  { apply (bool_decide_unpack _). vm_compute. exact I. }
  assert (Hclosed : Editor.connections_closed (Editor.workflow st)).
  { apply (bool_decide_unpack _). vm_compute. exact I. }
  split; [exact Habsent |]. split; [exact Hclosed |].
  apply (deleteStep_absent "step-9" st Habsent Hclosed).
Defined.

Lemma deleteStep_selectedStep (stepId : string) (st : Editor.State) :
  Editor.selectedStep (Editor.deleteStep stepId st)
  = (if decide (Editor.selectedStep st = Some stepId) then None
     else Editor.selectedStep st).
Proof. unfold Editor.deleteStep. by destruct (decide _). Qed.

Lemma deleteStep_cells (stepId : string) (st : Editor.State) :
  Editor.isLoading (Editor.deleteStep stepId st) = Editor.isLoading st
  ∧ Editor.showStepLibrary (Editor.deleteStep stepId st) = Editor.showStepLibrary st
  ∧ Editor.timers (Editor.deleteStep stepId st) = Editor.timers st
  ∧ Editor.console (Editor.deleteStep stepId st) = Editor.console st.
Proof. unfold Editor.deleteStep. by destruct (decide _). Qed.

Lemma State_ext (s1 s2 : Editor.State) :
  Editor.workflow s1 = Editor.workflow s2 →
  Editor.selectedStep s1 = Editor.selectedStep s2 →
  Editor.isLoading s1 = Editor.isLoading s2 →
  Editor.showStepLibrary s1 = Editor.showStepLibrary s2 →
  Editor.timers s1 = Editor.timers s2 →
  Editor.console s1 = Editor.console s2 →
  s1 = s2.
Proof. destruct s1, s2; simpl; congruence. Qed.

(** Deleting is idempotent, and two deletions commute: once a step is
    deleted, deleting it again changes nothing, and the order in which two
    steps are deleted does not matter. *)
Theorem deleteStep_idempotent_commute (a b : string) (st : Editor.State) :
  Editor.deleteStep a (Editor.deleteStep a st) = Editor.deleteStep a st
  ∧ Editor.deleteStep a (Editor.deleteStep b st)
    = Editor.deleteStep b (Editor.deleteStep a st).
Proof.
  split.
  - apply State_ext.
    + rewrite !deleteStep_workflow. simpl.
      f_equal; rewrite list_filter_filter; apply list_filter_iff; tauto.
    + rewrite !deleteStep_selectedStep. repeat case_decide; congruence.
    + by rewrite !(proj1 (deleteStep_cells _ _)).
    + by rewrite !(proj1 (proj2 (deleteStep_cells _ _))).
    + by rewrite !(proj1 (proj2 (proj2 (deleteStep_cells _ _)))).
    + by rewrite !(proj2 (proj2 (proj2 (deleteStep_cells _ _)))).
  - apply State_ext.
    + rewrite !deleteStep_workflow. simpl.
      f_equal; rewrite !list_filter_filter; apply list_filter_iff; tauto.
    + rewrite !deleteStep_selectedStep. repeat case_decide; congruence.
    + by rewrite !(proj1 (deleteStep_cells _ _)).
    + by rewrite !(proj1 (proj2 (deleteStep_cells _ _))).
    + by rewrite !(proj1 (proj2 (proj2 (deleteStep_cells _ _)))).
    + by rewrite !(proj2 (proj2 (proj2 (deleteStep_cells _ _)))).
Qed.

(** The id of a new step is a function of the time of the click alone:
    clicks at different milliseconds give different ids, and two steps
    added in the same millisecond share one id, so that one [deleteStep]
    removes both. *)
Theorem addStep_ids (now now' : N) (stepType stepType' : StepType) (st : Editor.State) :
  (now ≠ now' →
   step_id (Editor.newStep now stepType (length (steps (Editor.workflow st))))
   ≠ step_id (Editor.newStep now' stepType'
                (length (steps (Editor.workflow (Editor.addStep now stepType st))))))
  ∧ steps (Editor.workflow
             (Editor.deleteStep ("step-" +:+ pretty now)
                (Editor.addStep now stepType' (Editor.addStep now stepType st))))
    = filter (λ step, step_id step ≠ "step-" +:+ pretty now) (steps (Editor.workflow st)).
Proof.
  split.
  - intros Hne Heq. simpl in Heq. apply Hne.
    apply (inj pretty). by apply (inj (String.append "step-")) in Heq.
  - rewrite deleteStep_workflow.
    cbn [steps]. rewrite !addStep_steps, !filter_app.
    rewrite !filter_cons_False by (simpl; naive_solver).
    by rewrite !app_nil_r.
Qed.

Lemma addStep_ids_witness :
  1700000000000%N ≠ 1700000000001%N
  ∧ step_id (Editor.newStep 1700000000000 form 0)
    ≠ step_id (Editor.newStep 1700000000001 form 1).
Proof.
  split; [discriminate |].
  apply (addStep_ids 1700000000000 1700000000001 form form Editor.initial).
  discriminate.
Defined.

(** The line a save writes to the console holds the workflow as it was when
    "Save Draft" was clicked: whatever the state has become when the timer
    fires, the callback logs the workflow it captured, and the workflow of
    that later state is not touched. *)
Theorem handleSave_logs_captured (st later : Editor.State) :
  Editor.timers later = Editor.timers (Editor.handleSave st) →
  let fired := Editor.fire (length (Editor.timers st)) later in
  Editor.console fired
  = Editor.console later
    ++ [ {| Editor.log_label := "Saving workflow:";
            Editor.log_payload := Editor.workflow st |} ]
  ∧ Editor.workflow fired = Editor.workflow later
  ∧ Editor.isLoading fired = false
  ∧ Editor.timers fired = Editor.timers st.
Proof.
  intros Htimers fired. unfold fired.
  erewrite fire_last by exact Htimers. done.
Qed.

Lemma handleSave_logs_captured_witness :
  let st := Editor.mount Editor.edit (Some "1") in
  let later := Editor.changeName "Renamed" (Editor.handleSave st) in
  Editor.timers later = Editor.timers (Editor.handleSave st)
  ∧ wf_name (Editor.workflow later) = "Renamed"
  ∧ Editor.log_payload <$> Editor.console (Editor.fire 0 later)
    = [ Editor.mockWorkflowData ].
Proof.
  intros st later. split; [reflexivity |]. split; [reflexivity |].
  transitivity
    (Editor.log_payload
       <$> (Editor.console later
            ++ [ {| Editor.log_label := "Saving workflow:";
                    Editor.log_payload := Editor.workflow st |} ]));
    [| reflexivity].
  apply (f_equal (fmap Editor.log_payload)).
  apply (handleSave_logs_captured st later). reflexivity.
Defined.

(** * The page as a whole: what every sequence of events keeps *)

Lemma canvas_event_cases (ev : Canvas.Event) (st : App.State) :
  (App.canvas_event ev st).1 = st.1
  ∨ (∃ sel, (App.canvas_event ev st).1 = Editor.setSelectedStep sel st.1)
  ∨ (∃ stepId, (App.canvas_event ev st).1 = Editor.deleteStep stepId st.1).
Proof. destruct ev; simpl; eauto. Qed.

Lemma panel_event_cases (ev : Panel.Event) (st : Editor.State) :
  App.panel_event ev st = st
  ∨ App.panel_event ev st = Editor.setSelectedStep None st
  ∨ (∃ stepId updates,
       upd_id updates = None ∧ App.panel_event ev st = Editor.updateStep stepId updates st).
Proof.
  unfold App.panel_event. destruct (Editor.selectedStepData st) as [shown|]; [|eauto].
  destruct ev as [[] value | configKey value | | |]; simpl;
    first [ by right; left
          | right; right; do 2 eexists; split; [| reflexivity]; reflexivity ].
Qed.

Lemma run_invariant (I : Editor.State → Prop) :
  (∀ ev st, I st.1 → I (App.step ev st).1) →
  ∀ evs st, I st.1 → I (App.run evs st).1.
Proof.
  intros Hstep evs. unfold App.run.
  induction evs as [|ev evs IH]; intros st Hst; [done|].
  simpl. apply IH. by apply Hstep.
Qed.

Lemma step_loading (ev : App.Event) (st : App.State) :
  let I := λ s, (Editor.isLoading s = true ∧ length (Editor.timers s) = 1%nat)
                ∨ (Editor.isLoading s = false ∧ Editor.timers s = []) in
  I st.1 → I (App.step ev st).1.
Proof.
  intros I HI. unfold I in *.
  destruct ev as [| | n | | | | | | ev | ev]; simpl; try done.
  - destruct HI as [[Hl Ht] | [Hl Ht]]; rewrite Hl; [by left |].
    left. simpl. by rewrite Ht.
  - destruct HI as [[Hl Ht] | [Hl Ht]]; rewrite Hl; [by left |].
    left. simpl. by rewrite Ht.
  - unfold Editor.fire.
    destruct (Editor.timers st.1 !! n) as [t|] eqn:Hn; [|done].
    right. destruct HI as [[Hl Ht] | [Hl Ht]]; [| by rewrite Ht in Hn].
    destruct (Editor.timers st.1) as [|t' [|??]] eqn:Hts; simplify_eq/=.
    destruct n as [|n]; [| done].
    destruct (Editor.timer_callback t); done.
  - destruct (canvas_event_cases ev st) as [-> | [[sel ->] | [stepId ->]]]; try done.
    destruct (deleteStep_cells stepId st.1) as (-> & _ & -> & _). done.
  - destruct (panel_event_cases ev st.1) as [-> | [-> | (stepId & updates & _ & ->)]]; done.
Qed.

(** Whatever the user does, the page is loading exactly while one timer is
    pending: the header buttons are disabled while [isLoading], so a second
    save or publish cannot start before the timer of the first has fired,
    and when that timer fires [isLoading] is cleared. *)
Theorem loading_while_one_timer
    (mode : Editor.Mode) (workflowId : option string) (evs : list App.Event) :
  let st := (App.run evs (App.start mode workflowId)).1 in
  (Editor.isLoading st = true ∧ length (Editor.timers st) = 1%nat)
  ∨ (Editor.isLoading st = false ∧ Editor.timers st = []).
Proof.
  apply (run_invariant
           (λ s, (Editor.isLoading s = true ∧ length (Editor.timers s) = 1%nat)
                 ∨ (Editor.isLoading s = false ∧ Editor.timers s = []))).
  - intros ev st. apply step_loading.
  - right. by destruct mode, workflowId as [[|??]|].
Qed.

Lemma step_shape (ev : App.Event) (st : App.State) :
  (steps (Editor.workflow (App.step ev st).1) = steps (Editor.workflow st.1)
   ∧ connections (Editor.workflow (App.step ev st).1)
     = connections (Editor.workflow st.1))
  ∨ (∃ now stepType, (App.step ev st).1 = Editor.addStep now stepType st.1)
  ∨ (∃ stepId, (App.step ev st).1 = Editor.deleteStep stepId st.1)
  ∨ (∃ stepId updates,
       upd_id updates = None ∧ (App.step ev st).1 = Editor.updateStep stepId updates st.1).
Proof.
  destruct ev as [| | n | | | | | | ev | ev]; simpl; eauto.
  - left. by destruct (Editor.isLoading st.1).
  - left. by destruct (Editor.isLoading st.1).
  - left. by rewrite fire_workflow.
  - destruct (canvas_event_cases ev st) as [-> | [[sel ->] | [stepId ->]]]; eauto.
  - destruct (panel_event_cases ev st.1) as [-> | [-> | (stepId & updates & ? & ->)]];
      eauto 7.
Qed.

Lemma step_closed (ev : App.Event) (st : App.State) :
  Editor.connections_closed (Editor.workflow st.1) →
  Editor.connections_closed (Editor.workflow (App.step ev st).1).
Proof.
  intros Hclosed.
  destruct (step_shape ev st)
    as [[Hs Hc] | [(now & stepType & ->) | [(stepId & ->) | (stepId & updates & ? & ->)]]].
  - unfold Editor.connections_closed. by rewrite Hs, Hc.
  - by apply addStep_closed.
  - by apply deleteStep_closed.
  - by apply updateStep_closed.
Qed.

Lemma step_connections (ev : App.Event) (st : App.State) :
  connections (Editor.workflow (App.step ev st).1)
    `sublist_of` connections (Editor.workflow st.1).
Proof.
  destruct (step_shape ev st)
    as [[Hs Hc] | [(now & stepType & ->) | [(stepId & ->) | (stepId & updates & ? & ->)]]].
  - by rewrite Hc.
  - done.
  - rewrite deleteStep_workflow. apply sublist_filter.
  - done.
Qed.

Lemma run_closed (evs : list App.Event) (st : App.State) :
  Editor.connections_closed (Editor.workflow st.1) →
  Editor.connections_closed (Editor.workflow (App.run evs st).1).
Proof.
  apply (run_invariant (λ s, Editor.connections_closed (Editor.workflow s))).
  intros ev st'. apply step_closed.
Qed.

Lemma run_connections (evs : list App.Event) (st : App.State) :
  connections (Editor.workflow (App.run evs st).1)
    `sublist_of` connections (Editor.workflow st.1).
Proof.
  apply (run_invariant
           (λ s, connections (Editor.workflow s)
                   `sublist_of` connections (Editor.workflow st.1))); [|done].
  intros ev st' Hst'. by etrans; [apply step_connections |].
Qed.

(** In every state the page can reach, each connection runs between two
    steps that exist.  No event creates a connection: the connections are
    always some of those loaded at the start, in their order, and a
    workflow begun in mode "create" never has any. *)
Theorem reachable_connections
    (mode : Editor.Mode) (workflowId : option string) (evs : list App.Event) :
  Editor.connections_closed
    (Editor.workflow (App.run evs (App.start mode workflowId)).1)
  ∧ connections (Editor.workflow (App.run evs (App.start mode workflowId)).1)
      `sublist_of` connections Editor.mockWorkflowData
  ∧ connections (Editor.workflow (App.run evs (App.start Editor.create workflowId)).1)
    = [].
Proof.
  split_and!.
  - apply run_closed.
    destruct mode, workflowId as [[|??]|]; apply (bool_decide_unpack _); by vm_compute.
  - etrans; [apply run_connections |].
    destruct mode, workflowId as [[|??]|]; simpl;
      first [done | apply sublist_nil_l].
  - apply sublist_nil_r. apply (run_connections evs (App.start Editor.create workflowId)).
Qed.

(** * The canvas (WorkflowCanvas.tsx) *)

(** A click on a step card toggles the selection of that step: it clears
    the selection when the step was selected and selects the step
    otherwise.  So a second click on the same card undoes the first only
    when the card or nothing was selected before: after two clicks on an
    unselected card nothing is selected.  The workflow is not touched. *)
Theorem canvas_click_toggles (stepId : string) (st : App.State) :
  let once := App.canvas_event (Canvas.Click stepId) st in
  let twice := App.canvas_event (Canvas.Click stepId) once in
  Editor.selectedStep once.1
  = (if decide (Editor.selectedStep st.1 = Some stepId) then None else Some stepId)
  ∧ Editor.selectedStep twice.1
    = (if decide (Editor.selectedStep st.1 = Some stepId) then Some stepId else None)
  ∧ Editor.workflow twice.1 = Editor.workflow st.1
  ∧ twice.2 = st.2.
Proof.
  intros once twice. subst once twice.
  unfold App.canvas_event. simpl.
  destruct (decide (Editor.selectedStep st.1 = Some stepId)) as [Hsel|Hsel]; simpl.
  - done.
  - by rewrite decide_True.
Qed.

Lemma canvas_event_sublist (ev : Canvas.Event) (st : App.State) :
  steps (Editor.workflow (App.canvas_event ev st).1)
    `sublist_of` steps (Editor.workflow st.1)
  ∧ connections (Editor.workflow (App.canvas_event ev st).1)
      `sublist_of` connections (Editor.workflow st.1)
  ∧ wf_id (Editor.workflow (App.canvas_event ev st).1) = wf_id (Editor.workflow st.1)
  ∧ wf_name (Editor.workflow (App.canvas_event ev st).1) = wf_name (Editor.workflow st.1)
  ∧ wf_description (Editor.workflow (App.canvas_event ev st).1)
    = wf_description (Editor.workflow st.1)
  ∧ wf_status (Editor.workflow (App.canvas_event ev st).1)
    = wf_status (Editor.workflow st.1).
Proof.
  destruct (canvas_event_cases ev st) as [-> | [[sel ->] | [stepId ->]]]; try done.
  rewrite deleteStep_workflow. simpl. split_and!; try done; apply sublist_filter.
Qed.

(** The canvas never edits a step: on any sequence of its events (clicks,
    drags, the settings and delete buttons) it never calls [onUpdateStep],
    the steps that remain are steps that were there, unchanged (position
    included) and in their order, and so are the connections; id, name,
    description and status of the workflow stay. *)
Theorem canvas_never_edits (evs : list Canvas.Event) (st : App.State) :
  Forall (λ cb, ∀ stepId updates, cb ≠ Canvas.onUpdateStep stepId updates)
         (App.canvas_calls evs st)
  ∧ steps (Editor.workflow (App.canvas_events evs st).1)
      `sublist_of` steps (Editor.workflow st.1)
  ∧ connections (Editor.workflow (App.canvas_events evs st).1)
      `sublist_of` connections (Editor.workflow st.1)
  ∧ wf_id (Editor.workflow (App.canvas_events evs st).1) = wf_id (Editor.workflow st.1)
  ∧ wf_name (Editor.workflow (App.canvas_events evs st).1) = wf_name (Editor.workflow st.1)
  ∧ wf_description (Editor.workflow (App.canvas_events evs st).1)
    = wf_description (Editor.workflow st.1)
  ∧ wf_status (Editor.workflow (App.canvas_events evs st).1)
    = wf_status (Editor.workflow st.1).
Proof.
  revert st. unfold App.canvas_events.
  induction evs as [|ev evs IH]; intros st; [by split_and!|].
  destruct (IH (App.canvas_event ev st)) as (Hcalls & Hs & Hc & Hid & Hn & Hd & Hst).
  destruct (canvas_event_sublist ev st) as (Hs' & Hc' & Hid' & Hn' & Hd' & Hst').
  simpl. split_and!.
  - apply Forall_app. split; [|done].
    destruct ev; simpl; repeat constructor; done.
  - by etrans.
  - by etrans.
  - by rewrite Hid.
  - by rewrite Hn.
  - by rewrite Hd.
  - by rewrite Hst.
Qed.

Lemma find_step_is_Some (w : WorkflowData) (stepId : string) :
  is_Some (Canvas.find_step w stepId) ↔ stepId ∈ (step_id <$> steps w).
Proof.
  unfold Canvas.find_step. rewrite fmap_is_Some. split.
  - intros [[i found] (Hi & Hid & _)%list_find_Some].
    apply list_elem_of_fmap. exists found. split; [done|].
    by eapply list_elem_of_lookup_2.
  - intros (found & -> & Hin)%list_elem_of_fmap.
    by eapply list_find_elem_of.
Qed.

Lemma connection_line_is_Some (w : WorkflowData) (conn : Connection) :
  is_Some (Canvas.connection_line w conn)
  ↔ conn_from conn ∈ (step_id <$> steps w) ∧ conn_to conn ∈ (step_id <$> steps w).
Proof.
  rewrite <- !find_step_is_Some. unfold Canvas.connection_line.
  destruct (Canvas.find_step w (conn_from conn)), (Canvas.find_step w (conn_to conn));
    rewrite !is_Some_alt; tauto.
Qed.

Lemma omap_length_le {A B} (f : A → option B) (l : list A) :
  (length (omap f l) ≤ length l)%nat.
Proof.
  induction l as [|a l IH]; [done|]. csimpl.
  destruct (f a); simpl; lia.
Qed.

Lemma omap_length_all {A B} (f : A → option B) (l : list A) :
  length (omap f l) = length l ↔ Forall (λ a, is_Some (f a)) l.
Proof.
  induction l as [|a l IH]; [by split; [constructor|]|]. csimpl.
  pose proof (omap_length_le f l).
  destruct (f a) as [b|] eqn:Hfa; simpl.
  - rewrite Forall_cons, <- IH. split; [intros [=]; eauto | intros [_ ->]; done].
  - split; [lia|]. intros [[? [=]] _]%Forall_cons. congruence.
Qed.

(** The canvas draws a line for every connection exactly when every
    connection runs between two steps that exist; a connection with a
    missing end is skipped without an error. *)
Theorem canvas_lines_complete (w : WorkflowData) :
  length (Canvas.lines w) = length (connections w) ↔ Editor.connections_closed w.
Proof.
  unfold Canvas.lines, Editor.connections_closed.
  rewrite omap_length_all. apply Forall_iff. intros conn.
  apply connection_line_is_Some.
Qed.

Lemma canvas_lines_complete_witness :
  Editor.connections_closed Editor.mockWorkflowData
  ∧ length (Canvas.lines Editor.mockWorkflowData) = 2%nat
  ∧ Canvas.lines Editor.mockWorkflowData
    = [ {| Canvas.x1 := 250; Canvas.y1 := 140; Canvas.x2 := 450; Canvas.y2 := 140 |};
        {| Canvas.x1 := 450; Canvas.y1 := 140; Canvas.x2 := 650; Canvas.y2 := 140 |} ].
Proof.
  assert (Hclosed : Editor.connections_closed Editor.mockWorkflowData).
  { apply (bool_decide_unpack _). vm_compute. exact I. }
  split; [exact Hclosed |].
  split; [| reflexivity].
  apply (proj2 (canvas_lines_complete Editor.mockWorkflowData)). exact Hclosed.
Defined.

(** * The step panel (StepconfigPanel.tsx) *)

Lemma selectedStepData_Some (st : Editor.State) (shown : WorkflowStep) :
  Editor.selectedStepData st = Some shown →
  Editor.selectedStep st = Some (step_id shown)
  ∧ Canvas.find_step (Editor.workflow st) (step_id shown) = Some shown.
Proof.
  unfold Editor.selectedStepData, Canvas.find_step.
  destruct (Editor.selectedStep st) as [sel|]; [|done].
  destruct (list_find _ _) as [[i found]|] eqn:Hfind; [|done].
  simpl. intros [= ->].
  pose proof Hfind as (_ & <- & _)%list_find_Some.
  by rewrite Hfind.
Qed.

Lemma selectedStepData_None (st : Editor.State) :
  Editor.selectedStep st = None → Editor.selectedStepData st = None.
Proof. unfold Editor.selectedStepData. by intros ->. Qed.

Lemma panel_events_closed_panel (evs : list Panel.Event) (st : Editor.State) :
  Editor.selectedStepData st = None → App.panel_events evs st = st.
Proof.
  intros Hnone. unfold App.panel_events.
  induction evs as [|ev evs IH]; [done|].
  simpl. unfold App.panel_event at 2. by rewrite Hnone.
Qed.

Lemma panel_event_selected_cases (ev : Panel.Event) (st : Editor.State) :
  App.panel_event ev st = st
  ∨ App.panel_event ev st = Editor.setSelectedStep None st
  ∨ (∃ shown updates,
       Editor.selectedStepData st = Some shown
       ∧ Panel.handle shown ev = [ Panel.onUpdateStep (step_id shown) updates ]
       ∧ upd_id updates = None
       ∧ App.panel_event ev st = Editor.updateStep (step_id shown) updates st).
Proof.
  unfold App.panel_event. destruct (Editor.selectedStepData st) as [shown|]; [|eauto].
  destruct ev as [[] value | configKey value | | |]; simpl;
    first [ by right; left
          | right; right; do 2 eexists; split_and!; reflexivity ].
Qed.

Lemma updateStep_others (stepId : string) (updates : StepUpdates) (st : Editor.State) :
  upd_id updates = None →
  filter (λ step, step_id step ≠ stepId)
         (steps (Editor.workflow (Editor.updateStep stepId updates st)))
  = filter (λ step, step_id step ≠ stepId) (steps (Editor.workflow st)).
Proof.
  intros Hid. rewrite updateStep_steps.
  induction (steps (Editor.workflow st)) as [|step l IH]; [done|].
  rewrite fmap_cons. destruct (decide (step_id step = stepId)) as [Heq|Hne].
  - rewrite !filter_cons_False; [done | naive_solver |].
    unfold spread_step. simpl. rewrite Hid. simpl. naive_solver.
  - rewrite !filter_cons_True by done. by rewrite IH.
Qed.

(** Whatever is done in the panel, only the step it shows is edited: after
    any sequence of panel events the ids and the number of the steps and the
    connections are as before, every step with another id than the selected
    one is unchanged, and the selection is the same or cleared.  So
    connections that ran between existing steps still do. *)
Theorem panel_events_frame (evs : list Panel.Event) (st : Editor.State) :
  let st' := App.panel_events evs st in
  step_id <$> steps (Editor.workflow st') = step_id <$> steps (Editor.workflow st)
  ∧ connections (Editor.workflow st') = connections (Editor.workflow st)
  ∧ filter (λ step, Editor.selectedStep st ≠ Some (step_id step))
           (steps (Editor.workflow st'))
    = filter (λ step, Editor.selectedStep st ≠ Some (step_id step))
             (steps (Editor.workflow st))
  ∧ (Editor.selectedStep st' = Editor.selectedStep st ∨ Editor.selectedStep st' = None).
Proof.
  simpl. revert st. induction evs as [|ev evs IH]; intros st; [by split_and!; eauto|].
  change (App.panel_events (ev :: evs) st)
    with (App.panel_events evs (App.panel_event ev st)).
  destruct (panel_event_selected_cases ev st)
    as [-> | [-> | (shown & updates & Hshown & _ & Hid & ->)]].
  - apply IH.
  - rewrite panel_events_closed_panel by by apply selectedStepData_None.
    split_and!; eauto.
  - destruct (IH (Editor.updateStep (step_id shown) updates st)) as (Hids & Hc & Hf & Hsel).
    apply selectedStepData_Some in Hshown as [Hselected _].
    split_and!.
    + rewrite Hids. by apply updateStep_ids.
    + by rewrite Hc.
    + simpl in Hf. rewrite Hf, Hselected.
      rewrite !(list_filter_iff (λ step, Some (step_id shown) ≠ Some (step_id step))
                                (λ step, step_id step ≠ step_id shown))
        by (intros; split; congruence).
      by apply updateStep_others.
    + done.
Qed.

Lemma list_find_updated (sel : string) (updates : StepUpdates) (l : list WorkflowStep) :
  upd_id updates = None →
  list_find (λ step, step_id step = sel)
    ((λ step, if decide (step_id step = sel) then spread_step step updates else step) <$> l)
  = prod_map id (λ step, spread_step step updates)
      <$> list_find (λ step, step_id step = sel) l.
Proof.
  intros Hid. induction l as [|step l IH]; [done|]. csimpl.
  destruct (decide (step_id step = sel)) as [Heq|Hne].
  - rewrite decide_True; [done|]. simpl. by rewrite Hid.
  - rewrite decide_False by done. rewrite IH.
    by destruct (list_find _ l) as [[??]|].
Qed.

(** Changing a config value in the panel stores it under its key in the
    config of the step shown and keeps that step's other keys, its id,
    type, name, description and position; the panel goes on showing that
    step. *)
Theorem panel_change_config
    (configKey : string) (value : JsValue) (st : Editor.State) (shown : WorkflowStep) :
  Editor.selectedStepData st = Some shown →
  ∃ shown',
    Editor.selectedStepData (App.panel_event (Panel.ChangeConfig configKey value) st)
    = Some shown'
    ∧ step_config shown' !! configKey = Some value
    ∧ (∀ key, key ≠ configKey → step_config shown' !! key = step_config shown !! key)
    ∧ step_id shown' = step_id shown
    ∧ step_type shown' = step_type shown
    ∧ step_name shown' = step_name shown
    ∧ step_description shown' = step_description shown
    ∧ step_position shown' = step_position shown.
Proof.
  intros Hshown.
  exists (spread_step shown
            {| upd_id := None; upd_type := None; upd_name := None;
               upd_description := None;
               upd_config := Some (<[configKey := value]> (step_config shown));
               upd_position := None |}).
  split_and!; try done.
  - unfold App.panel_event. rewrite Hshown. simpl.
    apply selectedStepData_Some in Hshown as [Hsel Hfind].
    unfold Editor.selectedStepData. simpl. rewrite Hsel.
    rewrite list_find_updated by done.
    unfold Canvas.find_step in Hfind.
    destruct (list_find _ _) as [[i found]|]; simplify_eq/=. done.
  - simpl. apply lookup_insert_eq.
  - intros key Hkey. simpl. by apply lookup_insert_ne.
Qed.

Lemma panel_change_config_witness :
  let st := Editor.setSelectedStep (Some "step-2") (Editor.mount Editor.edit (Some "1")) in
  is_Some (Editor.selectedStepData st)
  ∧ ∃ shown',
      Editor.selectedStepData
        (App.panel_event (Panel.ChangeConfig "subject" (JStr "Welcome aboard")) st)
      = Some shown'
      ∧ step_config shown' !! "subject" = Some (JStr "Welcome aboard")
      ∧ step_config shown' !! "templateId" = Some (JStr "welcome-template").
Proof.
  intros st.
  assert (Hshown : is_Some (Editor.selectedStepData st)) by (vm_compute; eauto).
  split; [exact Hshown |].
  destruct Hshown as [shown Hshown].
  destruct (panel_change_config "subject" (JStr "Welcome aboard") st shown Hshown)
    as (shown' & Hshown' & Hvalue & Hothers & _).
  exists shown'. split; [exact Hshown' |]. split; [exact Hvalue |].
  rewrite Hothers by discriminate.
  vm_compute in Hshown. injection Hshown as <-. reflexivity.
Defined.

(** * The form builder's fields (FormPage.tsx) *)

Lemma Form_State_eta (st : Form.State) (l : list Form.FormField) :
  l = Form.fields st → Form.setFields l st = st.
Proof. destruct st; simpl; by intros ->. Qed.

Lemma absent_field_Forall (fieldId : string) (l : list Form.FormField) :
  fieldId ∉ (Form.id <$> l) → Forall (λ field, Form.id field ≠ fieldId) l.
Proof.
  intros Habsent. apply Forall_forall. intros field Hin Heq.
  apply Habsent, list_elem_of_fmap. eauto.
Qed.

(** Adding a field whose id (the time of the click) no field has yet and
    removing it again gives the form back. *)
Theorem addField_removeField (now : N) (t : Form.FieldType) (st : Form.State) :
  pretty now ∉ (Form.id <$> Form.fields st) →
  Form.removeField (pretty now) (Form.addField now t st) = st.
Proof.
  intros Hfresh. unfold Form.removeField, Form.addField. simpl.
  change (Form.setFields ?l (Form.setFields ?l' st)) with (Form.setFields l st).
  apply Form_State_eta.
  rewrite filter_app, filter_cons_False by (simpl; naive_solver).
  rewrite app_nil_r. apply filter_Forall_id. by apply absent_field_Forall.
Qed.

Lemma addField_removeField_witness :
  (pretty 1700000000000%N ∉ (Form.id <$> Form.fields Form.initial))
  ∧ Form.removeField (pretty 1700000000000%N)
      (Form.addField 1700000000000%N Form.select Form.initial)
    = Form.initial.
Proof.
  assert (Hfresh : pretty 1700000000000%N ∉ (Form.id <$> Form.fields Form.initial)).
  { apply (bool_decide_unpack _). vm_compute. exact I. }
  split; [exact Hfresh |].
  apply (addField_removeField 1700000000000%N Form.select Form.initial Hfresh).
Defined.

(** Updating or removing a field by an id that no field has changes
    nothing. *)
Theorem field_absent (fieldId : string) (updates : Form.FieldUpdates) (st : Form.State) :
  fieldId ∉ (Form.id <$> Form.fields st) →
  Form.updateField fieldId updates st = st
  ∧ Form.removeField fieldId st = st.
Proof.
  intros Habsent. split; apply Form_State_eta.
  - rewrite <- (list_fmap_id (Form.fields st)) at 2.
    apply list_fmap_ext. intros i field Hfield. simpl.
    rewrite decide_False; [done|]. intros <-. apply Habsent.
    apply list_elem_of_fmap. exists field. split; [done|].
    by eapply list_elem_of_lookup_2.
  - apply filter_Forall_id. by apply absent_field_Forall.
Qed.

Lemma field_absent_witness :
  ("3" ∉ (Form.id <$> Form.fields Form.initial))
  ∧ Form.removeField "3" Form.initial = Form.initial.
Proof.
  assert (Habsent : "3" ∉ (Form.id <$> Form.fields Form.initial)).
  { apply (bool_decide_unpack _). vm_compute. exact I. }
  split; [exact Habsent |].
  apply (field_absent "3"
           {| Form.new_id := None; Form.new_type := None; Form.new_label := None;
              Form.new_placeholder := None; Form.new_required := None;
              Form.new_options := None |}
           Form.initial Habsent).
Defined.

Lemma updateField_ids (fieldId : string) (updates : Form.FieldUpdates) (st : Form.State) :
  Form.new_id updates = None →
  Form.id <$> Form.fields (Form.updateField fieldId updates st)
  = Form.id <$> Form.fields st.
Proof.
  intros Hid. simpl. rewrite <- list_fmap_compose.
  apply list_fmap_ext. intros i field _. simpl.
  destruct (decide _); [|done]. simpl. by rewrite Hid.
Qed.

(** An edit of a field (label, placeholder, required, options: none of them
    carries an id) keeps the ids and the order of the fields, leaves every
    field with another id as it is, and keeps title and description. *)
Theorem updateField_frame (fieldId : string) (updates : Form.FieldUpdates) (st : Form.State) :
  Form.new_id updates = None →
  let st' := Form.updateField fieldId updates st in
  Form.id <$> Form.fields st' = Form.id <$> Form.fields st
  ∧ filter (λ field, Form.id field ≠ fieldId) (Form.fields st')
    = filter (λ field, Form.id field ≠ fieldId) (Form.fields st)
  ∧ Form.formTitle st' = Form.formTitle st
  ∧ Form.formDescription st' = Form.formDescription st.
Proof.
  intros Hid. split_and!; try reflexivity.
  - by apply updateField_ids.
  - simpl. induction (Form.fields st) as [|field l IH]; [done|].
    rewrite fmap_cons. destruct (decide (Form.id field = fieldId)) as [Heq|Hne].
    + rewrite !filter_cons_False; [done | naive_solver |].
      simpl. rewrite Hid. simpl. naive_solver.
    + rewrite !filter_cons_True by done. by rewrite IH.
Qed.

Lemma updateField_frame_witness :
  let updates :=
    {| Form.new_id := None; Form.new_type := None; Form.new_label := Some "Name";
       Form.new_placeholder := None; Form.new_required := None;
       Form.new_options := None |} in
  Form.new_id updates = None
  ∧ Form.id <$> Form.fields (Form.updateField "1" updates Form.initial)
    = Form.id <$> Form.fields Form.initial
  ∧ Form.label <$> Form.fields (Form.updateField "1" updates Form.initial)
    = [ "Name"; "Email Address" ].
Proof.
  intros updates. split; [reflexivity |]. split; [| reflexivity].
  apply (updateField_frame "1" updates Form.initial). reflexivity.
Defined.

(** Every field is either shown in the preview or counted in its "+n more
    fields" line: the preview shows the first three fields, the line appears
    exactly when there are more than three, and what is shown and what is
    counted add up to the number of fields. *)
Theorem preview_covers_fields (st : Form.State) :
  Form.preview_fields st `prefix_of` Form.fields st
  ∧ length (Form.preview_fields st) = Nat.min 3 (length (Form.fields st))
  ∧ (length (Form.preview_fields st) + default 0 (Form.preview_more st))%nat
    = length (Form.fields st)
  ∧ (Form.preview_more st = None ↔ (length (Form.fields st) ≤ 3)%nat).
Proof.
  unfold Form.preview_fields, Form.preview_more. split_and!.
  - apply prefix_take.
  - apply length_take.
  - rewrite length_take. destruct (decide _); unfold default, from_option, id; lia.
  - destruct (decide _); split; intros; first [done | lia | exfalso; lia].
Qed.

Lemma join_cons_cons (sep : ascii) (s s' : string) (l : list string) :
  Form.join sep (s :: s' :: l) = s +:+ String sep (Form.join sep (s' :: l)).
Proof. reflexivity. Qed.

Lemma join_String (sep c : ascii) (piece : string) (pieces : list string) :
  Form.join sep (String c piece :: pieces) = String c (Form.join sep (piece :: pieces)).
Proof. by destruct pieces. Qed.

Lemma join_split (sep : ascii) (s : string) :
  Form.join sep (Form.split sep s) = s.
Proof.
  induction s as [|c s IH]; [done|].
  destruct (split_pieces sep s) as [Hne _].
  cbn [Form.split].
  destruct (Form.split sep s) as [|piece pieces]; [done|].
  destruct (decide (c = sep)) as [->|Hc].
  - by rewrite join_cons_cons, IH.
  - by rewrite join_String, IH.
Qed.

Lemma split_snoc (sep : ascii) (s : string) :
  Form.split sep (s +:+ String sep "") = Form.split sep s ++ [ "" ].
Proof.
  induction s as [|c s IH]; simpl.
  - by rewrite decide_True.
  - rewrite IH. destruct (decide (c = sep)); [done|].
    destruct (split_pieces sep s) as [Hne _].
    by destruct (Form.split sep s).
Qed.

Lemma round_trip_normal (l : list string) :
  Forall (λ s, s ≠ "" ∧ ¬ Form.contains Form.newline s) l →
  Form.parse_options (Form.textarea_value (Some l)) = l.
Proof.
  intros Hl. rewrite textarea_value_join. unfold Form.parse_options.
  destruct l as [|s l]; [done|].
  rewrite split_join; [| done | by eapply Forall_impl; [exact Hl | intros ? []]].
  apply filter_Boolean_id. by eapply Forall_impl; [exact Hl | intros ? []].
Qed.

(** What the options textarea does with what is typed: the field stores the
    non-empty lines, and the textarea then shows those lines joined.  So a
    line feed typed at the end is lost (the textarea shows the text without
    it), what is shown stands for the options stored, showing it again
    changes nothing, and a text without empty lines is shown as typed. *)
Theorem options_textarea_normalises (fieldId value : string) (st : Form.State) :
  let shown := Form.textarea_value (Some (Form.parse_options value)) in
  Forall (λ field, Form.id field = fieldId →
                   Form.textarea_value (Form.options field) = shown)
         (Form.fields (Form.changeOptions fieldId value st))
  ∧ Form.parse_options (value +:+ String Form.newline "") = Form.parse_options value
  ∧ Form.parse_options shown = Form.parse_options value
  ∧ Form.textarea_value (Some (Form.parse_options shown)) = shown
  ∧ (Forall (λ piece, piece ≠ "") (Form.split Form.newline value) → shown = value).
Proof.
  intros shown.
  assert (Hparse : Form.parse_options shown = Form.parse_options value).
  { apply round_trip_normal, parse_options_normal. }
  split_and!.
  - apply Forall_forall. intros field Hin Hid.
    simpl in Hin. apply list_elem_of_fmap in Hin as (field0 & -> & Hin).
    destruct (decide (Form.id field0 = fieldId)) as [Heq|Hne]; [done|].
    by destruct Hne.
  - unfold Form.parse_options. rewrite split_snoc, List.filter_app. simpl.
    by rewrite app_nil_r.
  - exact Hparse.
  - by rewrite Hparse.
  - intros Hpieces. unfold shown, Form.parse_options.
    rewrite filter_Boolean_id by done.
    rewrite textarea_value_join. apply join_split.
Qed.

Lemma options_textarea_normalises_witness :
  let value := "Small" +:+ String Form.newline "Large" in
  Forall (λ piece, piece ≠ "") (Form.split Form.newline value)
  ∧ Form.textarea_value (Some (Form.parse_options value)) = value
  ∧ Form.textarea_value
      (Some (Form.parse_options (value +:+ String Form.newline "")))
    = value.
Proof.
  intros value.
  assert (Hpieces : Forall (λ piece, piece ≠ "") (Form.split Form.newline value)).
  { by repeat constructor. }
  split; [exact Hpieces |].
  split; [| reflexivity].
  apply (options_textarea_normalises "1" value Form.initial). exact Hpieces.
Defined.

(** * Which routes the middleware guards (middleware.ts, WorkFlow.tsx) *)

Lemma prefix_empty (s : string) : String.prefix "" s = true.
Proof. by destruct s. Qed.

Lemma prefix_append (p s : string) : String.prefix p (p +:+ s) = true.
Proof.
  induction p as [|c p IH]; simpl; [apply prefix_empty|].
  by destruct (ascii_dec c c).
Qed.









(** The middleware never runs on the root, on a pathname that begins with
    /api, /_next/static, /_next/image or /favicon.ico, whatever follows, or
    on a string that does not begin with a slash. *)
Theorem exempt_routes (s : string) :
  Middleware.applies "/" = false
  ∧ Middleware.applies ("/api" +:+ s) = false
  ∧ Middleware.applies ("/_next/static" +:+ s) = false
  ∧ Middleware.applies ("/_next/image" +:+ s) = false
  ∧ Middleware.applies ("/favicon.ico" +:+ s) = false
  ∧ (∀ c, c ≠ "/"%char → Middleware.applies (String c s) = false).
Proof.
  split_and!; [reflexivity | | | | |].
  - rewrite applies_closed_form.
    change ("/api" +:+ s) with (String "/" ("api" +:+ s)). cbv beta iota.
    by rewrite prefix_append, andb_false_r.
  - rewrite applies_closed_form.
    change ("/_next/static" +:+ s) with (String "/" ("_next/static" +:+ s)). cbv beta iota.
    by rewrite prefix_append, !orb_true_r, andb_false_r.
  - rewrite applies_closed_form.
    change ("/_next/image" +:+ s) with (String "/" ("_next/image" +:+ s)). cbv beta iota.
    by rewrite prefix_append, !orb_true_r, andb_false_r.
  - rewrite applies_closed_form.
    change ("/favicon.ico" +:+ s) with (String "/" ("favicon.ico" +:+ s)). cbv beta iota.
    replace (Middleware.favicon_any ("favicon.ico" +:+ s)) with true.
    + by rewrite !orb_true_r, andb_false_r.
    + unfold Middleware.favicon_any. simpl. by rewrite prefix_empty.
  - intros c Hc. rewrite applies_closed_form.
    by rewrite bool_decide_eq_false_2.
Qed.

Lemma exempt_routes_witness :
  ("a" ≠ "/")%char ∧ Middleware.applies "api/users" = false.
Proof.
  split; [discriminate |].
  apply (exempt_routes "pi/users"). discriminate.
Defined.

(** The workflow list and the canvas give a step type the same icon, except
    for "delay" and "condition": the list has no case for these two and
    shows the default icon, the canvas shows a clock and a branch. *)
Theorem list_and_canvas_icons (type : string) :
  WorkFlowCard.getStepIcon type = Canvas.getStepIcon type
  ↔ type ≠ "delay" ∧ type ≠ "condition".
Proof.
  unfold WorkFlowCard.getStepIcon, Canvas.getStepIcon.
  repeat case_decide; subst; split; try done; intros [? ?]; done.
Qed.

Lemma list_and_canvas_icons_witness :
  ("webhook" ≠ "delay" ∧ "webhook" ≠ "condition")
  ∧ WorkFlowCard.getStepIcon "webhook" = Canvas.getStepIcon "webhook".
Proof.
  assert (H : "webhook" ≠ "delay" ∧ "webhook" ≠ "condition") by (split; discriminate).
  split; [exact H |].
  apply (proj2 (list_and_canvas_icons "webhook")). exact H.
Defined.

(** * The sign-up form's validation ([SignUpPage]) *)

Lemma trimStart_nil (s : SignUp.jsstring) :
  SignUp.trimStart s = [] ↔ Forall (λ c, SignUp.WhiteSpace c = true) s.
Proof.
  induction s as [|c s IH]; simpl; [by split; [constructor|]|].
  destruct (SignUp.WhiteSpace c) eqn:Hc.
  - rewrite IH, Forall_cons. tauto.
  - split; [done|]. intros [Hc' _]%Forall_cons. congruence.
Qed.

Lemma trimStart_head (s : SignUp.jsstring) (c : N) (rest : SignUp.jsstring) :
  SignUp.trimStart s = c :: rest → SignUp.WhiteSpace c = false.
Proof.
  induction s as [|c' s IH]; simpl; [done|].
  destruct (SignUp.WhiteSpace c') eqn:Hc; [done|]. by intros [= <- _].
Qed.

Lemma trim_blank (s : SignUp.jsstring) :
  SignUp.falsy (SignUp.trim s) = true ↔ Forall (λ c, SignUp.WhiteSpace c = true) s.
Proof.
  unfold SignUp.falsy, SignUp.trim, SignUp.trimEnd.
  rewrite bool_decide_eq_true. rewrite <- trimStart_nil. split.
  - intros Hnil. apply (f_equal reverse) in Hnil.
    rewrite reverse_involutive in Hnil. simpl in Hnil.
    apply trimStart_nil in Hnil. rewrite Forall_reverse in Hnil.
    destruct (SignUp.trimStart s) as [|c rest] eqn:Hs; [done|].
    apply trimStart_head in Hs. apply Forall_cons in Hnil as [Hc _]. congruence.
  - by intros ->.
Qed.

(** [validateForm] accepts exactly when the name and the email hold a
    character that [trim] keeps, the password has at least 8 code units and
    equals its confirmation, and the terms are agreed to.  It stores one
    message per failed check, so no message is stored exactly when it
    accepts, and there are never more than five. *)
Theorem validateForm_accepts (st : SignUp.State) :
  ((SignUp.validateForm st).2 = true
   ↔ ¬ Forall (λ c, SignUp.WhiteSpace c = true) (SignUp.name (SignUp.formData st))
     ∧ ¬ Forall (λ c, SignUp.WhiteSpace c = true) (SignUp.email (SignUp.formData st))
     ∧ (8 ≤ length (SignUp.password (SignUp.formData st)))%nat
     ∧ SignUp.password (SignUp.formData st) = SignUp.confirmPassword (SignUp.formData st)
     ∧ SignUp.agreedToTerms st = true)
  ∧ ((SignUp.validateForm st).2 = true ↔ SignUp.errors (SignUp.validateForm st).1 = [])
  ∧ (length (SignUp.errors (SignUp.validateForm st).1) ≤ 5)%nat.
Proof.
  pose proof (trim_blank (SignUp.name (SignUp.formData st))) as Hname.
  pose proof (trim_blank (SignUp.email (SignUp.formData st))) as Hemail.
  simpl. unfold SignUp.newErrors. rewrite bool_decide_eq_true.
  destruct (SignUp.falsy (SignUp.trim (SignUp.name (SignUp.formData st))));
    destruct (SignUp.falsy (SignUp.trim (SignUp.email (SignUp.formData st))));
    destruct (decide (length (SignUp.password (SignUp.formData st)) < 8)%nat);
    destruct (decide (SignUp.password (SignUp.formData st)
                      ≠ SignUp.confirmPassword (SignUp.formData st))) as [Hne|Heq%dec_stable];
    destruct (SignUp.agreedToTerms st); simpl;
    (split_and!;
     [ split;
       [ done || (intros _; split_and!;
                  first [done | lia | rewrite <- ?Hname, <- ?Hemail; done])
       | intros (? & ? & ? & ? & ?); first [done | lia | tauto] ]
     | done
     | lia ]).
Qed.



Lemma validateForm_accepts_witness :
  let st :=
    {| SignUp.formData :=
         {| SignUp.name := [ 32; 65; 32 ]%N;
            SignUp.email := [ 97; 64; 98 ]%N;
            SignUp.password := [ 49; 50; 51; 52; 53; 54; 55; 56 ]%N;
            SignUp.confirmPassword := [ 49; 50; 51; 52; 53; 54; 55; 56 ]%N |};
       SignUp.showPassword := false; SignUp.showConfirmPassword := false;
       SignUp.isLoading := None; SignUp.showEmailForm := true;
       SignUp.agreedToTerms := true; SignUp.errors := []; SignUp.timers := [];
       SignUp.console := [] |} in
  (SignUp.validateForm st).2 = true
  ∧ ¬ Forall (λ c, SignUp.WhiteSpace c = true) (SignUp.name (SignUp.formData st)).
Proof.
  intros st. split; [reflexivity |].
  apply (proj1 (proj1 (validateForm_accepts st)) eq_refl).
Defined.

(** * The sign-in page's error message ([SignInPage]) *)

(** The sign-in page has a message for every non-empty error code, known or
    not, and none when there is no code or the code is the empty string. *)
Theorem getErrorMessage_None (error : option string) :
  SignIn.getErrorMessage error = None ↔ error = None ∨ error = Some "".
Proof.
  unfold SignIn.getErrorMessage.
  repeat (case_decide; [split; [done | by intros [?|?]; simplify_eq] |]).
  destruct error as [code|]; simpl; [|by split; [left|]].
  case_bool_decide as Hcode; split; try done.
  - intros [[=] | [= ->]]. done.
  - intros _. right. destruct (decide (code = "")) as [->|Hne]; [done | by destruct Hcode].
Qed.

Lemma getErrorMessage_None_witness :
  SignIn.getErrorMessage (Some "") = None
  ∧ SignIn.getErrorMessage (Some "AccessDenied")
    = Some "An error occurred during sign in. Please try again.".
Proof.
  split; [| reflexivity].
  apply (proj2 (getErrorMessage_None (Some ""))). by right.
Defined.
